(** * mace/utils/tuner.h: the kernel autotuner

    A shallow embedding of [mace::Tuner<param_type>]: the facade [TuneOrRun],
    the search [Tune] with its benchmark runner [Run], and the persistence of
    the parameter table ([WriteRunParameters], [ReadRunParamters]).

    Conventions of the embedding.
    - [int32_t], [int64_t] are integers of [Z] with the two's complement
      wrap-around written out ([Int.wrap]).
    - [double] is IEEE 754 binary64, taken from the Standard Library's
      executable specification [SpecFloat] (round to nearest even); the number
      a [double] denotes is a rational ([DoubleValue.value]).
    - [std::unordered_map<std::string, std::vector<param_type>>] is a
      [gmap string (list param_type)]; the order in which a loop over the
      container meets its entries is left open: it is a parameter
      ([iteration_order]) of which only this is known, that every entry is
      met once.
    - The kernel, the timer, the environment, the log and the file system are
      threaded explicitly through a [process] state. The history of kernel
      invocations is kept in that state so that call counts can be stated. *)

From Stdlib Require Import ZArith Lia Strings.Byte Ascii String List Floats.SpecFloat.
From Stdlib Require Import QArith Qabs Qpower Lqa.
From stdpp Require Import gmap strings list fin_maps.

Open Scope Z_scope.

(** ** Machine integers *)

Module Int.
(** Value of [z] once stored in a signed integer of [bits] bits. *)
Definition wrap (bits z : Z) : Z :=
  (z + 2 ^ (bits - 1)) mod 2 ^ bits - 2 ^ (bits - 1).

Definition to_int32 : Z -> Z := wrap 32.
Definition to_int64 : Z -> Z := wrap 64.

Definition in_range (bits z : Z) : Prop :=
  - 2 ^ (bits - 1) <= z < 2 ^ (bits - 1).
End Int.

(** ** [double] *)

Module Double.
Definition prec : Z := 53.
Definition emax : Z := 1024.

Definition double : Type := spec_float.

(** Integer to [double] conversion. *)
Definition of_int (z : Z) : double := binary_normalize prec emax z 0 false.

(** [std::numeric_limits<double>::max()] *)
Definition max : double := SFmax_float prec emax.

Definition infinity : double := S754_infinity false.

(** The literal [1.0]. *)
Definition one : double := SFone prec emax.

Definition mul : double -> double -> double := SFmul prec emax.
Definition div : double -> double -> double := SFdiv prec emax.
Definition ltb : double -> double -> bool := SFltb.

Definition is_nan (x : double) : bool :=
  match x with S754_nan => true | _ => false end.

(** [total_time_us * 1.0 / num_runs], with [total_time_us : int64_t] and
    [num_runs : int]. *)
Definition mean (total_time_us num_runs : Z) : double :=
  div (mul (of_int total_time_us) one) (of_int num_runs).

(** A zero, or a finite number of exponent at most [E] and of magnitude
    below [2 ^ V]. *)
Definition small (E V : Z) (x : double) : Prop :=
  match x with
  | S754_zero _ => True
  | S754_finite _ m e => e <= E /\ Zpos (digits2_pos m) + e <= V
  | _ => False
  end.
End Double.

(** ** The number a [double] denotes *)

Module DoubleValue.
(** The rational number that a zero or a finite [double] is. *)
Definition value (x : Double.double) : Q :=
  match x with
  | S754_finite s m e => inject_Z (cond_Zopp s (Zpos m)) * 2 ^ e
  | _ => 0
  end.

Definition is_finite (x : Double.double) : bool :=
  match x with
  | S754_zero _ | S754_finite _ _ _ => true
  | _ => false
  end.

(** [x] is a number, and it is the quotient of the integers [num] and [den]
    up to a relative error of [2 ^ -48]:
    [|x * den - num| <= |num| * 2 ^ -48]. *)
Definition quotient (x : Double.double) (num den : Z) : Prop :=
  is_finite x = true /\
  (Qabs (value x * inject_Z den - inject_Z num)
   <= Qabs (inject_Z num) * (1 # 281474976710656))%Q.
End DoubleValue.

Arguments Double.of_int : simpl never.
Arguments Double.max : simpl never.
Arguments Double.one : simpl never.
Arguments Double.mul : simpl never.
Arguments Double.div : simpl never.
Arguments Double.ltb : simpl never.
Arguments Double.mean : simpl never.
Arguments Int.wrap : simpl never.
Arguments Int.to_int32 : simpl never.
Arguments Int.to_int64 : simpl never.

(** ** Raw bytes of fixed-width integers *)

Inductive endianness := LittleEndian | BigEndian.

Module Raw.
Definition byte_of_Z (z : Z) : byte :=
  match Byte.of_N (Z.to_N (z mod 256)) with
  | Some b => b
  | None => x00
  end.

Definition Z_of_byte (b : byte) : Z := Z.of_N (Byte.to_N b).

(** The [w] low-order bytes of [z], least significant first. *)
Fixpoint le_bytes (w : nat) (z : Z) : list byte :=
  match w with
  | O => []
  | S w' => byte_of_Z z :: le_bytes w' (z / 256)
  end.

Fixpoint le_value (bs : list byte) : Z :=
  match bs with
  | [] => 0
  | b :: bs' => Z_of_byte b + 256 * le_value bs'
  end.

(** Object representation of a [w]-byte integer in host byte order:
    what [reinterpret_cast<char *>(&x)] exposes. *)
Definition encode (order : endianness) (w : nat) (z : Z) : list byte :=
  match order with
  | LittleEndian => le_bytes w z
  | BigEndian => rev (le_bytes w z)
  end.

Definition decode_unsigned (order : endianness) (bs : list byte) : Z :=
  match order with
  | LittleEndian => le_value bs
  | BigEndian => le_value (rev bs)
  end.

Definition decode_signed (order : endianness) (bs : list byte) : Z :=
  Int.wrap (8 * Z.of_nat (length bs)) (decode_unsigned order bs).
End Raw.

(** ** Log *)

Inductive severity := VERBOSE (level : Z) | WARNING.

Record log_line := { log_severity : severity; log_text : string }.

Definition is_warning (l : log_line) : bool :=
  match log_severity l with WARNING => true | VERBOSE _ => false end.

(** The warnings of a log, in order. *)
Definition warnings (l : list log_line) : list string :=
  log_text <$> filter (fun x => is_warning x = true) l.

(** ** What the header takes from elsewhere

    [mace/utils/logging.h], [mace/utils/timer.h] and [mace/utils/utils.h] are
    included by the header but are not part of it; so is the definition of
    [GetTuningParams], which the header only declares. They are parameters of
    the embedding. *)

(** Layout of [param_type]: [sizeof(param_type)] and the bytes of an object as
    seen through [reinterpret_cast<char *>]. *)
Class ParamType (param_type : Type) := {
  sizeof_param_type : nat;
  object_representation : param_type -> list byte
}.

Class Collaborators (param_type World Timer : Type) := {
  (** host byte order, in which the integers of the file are written *)
  byte_order : endianness;
  (** utils.h *)
  MACE_OBFUSCATE_SYMBOL : string -> string;
  MakeString : list param_type -> string;
  (** logging.h: whether verbose logging of that level is on *)
  VLOG_IS_ON : Z -> bool;
  (** whether the build defines the macro of that name *)
  MACE_DISABLE_NO_TUNING_WARNING : bool;
  (** timer.h: [Timer::AccumulatedMicros], a reading in microseconds of the
      timer as the last kernel call left it *)
  AccumulatedMicros : Timer -> World -> Z;
  (** the loader, which the header declares for tables of [unsigned int]:
      path, files, table before; success, table after *)
  GetTuningParams :
    option string -> gmap string (list byte) -> gmap string (list param_type) ->
    bool * gmap string (list param_type);
  (** [std::unordered_map]: the sequence in which a range-based [for] over
      the table meets its entries. The standard fixes no order; every entry
      is met exactly once. *)
  iteration_order :
    gmap string (list param_type) -> list (string * list param_type);
  iteration_order_entries :
    forall table, iteration_order table ≡ₚ map_to_list table
}.

(** [sizeof(int32_t)], [sizeof(int64_t)] *)
Definition sizeof_int32 : nat := 4.
Definition sizeof_int64 : nat := 8.

Section Tuner.
Context {param_type RetType World Timer : Type}.
Context `{!ParamType param_type, !Collaborators param_type World Timer}.

(** *** The kernel and the process around the tuner *)

(** What one call of the kernel leaves: its result, the content of
    [*tuning_result] (meaningful when a buffer was passed) and the world. *)
Record kernel_result := {
  kr_res : RetType;
  kr_tuning_result : list param_type;
  kr_world : World
}.

(** The [std::function] called [func]: it takes the parameters, a pointer
    to the timer or [nullptr], and a pointer to the output buffer (here its
    content) or [nullptr]. *)
Definition kernel : Type :=
  list param_type -> option Timer -> option (list param_type) -> World ->
  kernel_result.

(** The [std::function] called [param_generator]: no argument, returns
    the candidates. *)
Definition generator : Type := unit -> list (list param_type).

(** One kernel call, as recorded in the history. *)
Record invocation := {
  inv_params : list param_type;
  inv_timer : option Timer;
  inv_buffer : option (list param_type);
  inv_result : kernel_result
}.

Record process := {
  environ : string -> option string;       (* getenv *)
  files : gmap string (list byte);
  writable : string -> bool;               (* does an ofstream on it open *)
  world : World;
  invocations : list invocation;
  log : list log_line
}.

Definition with_world (w : World) (i : invocation) (p : process) : process :=
  {| environ := environ p; files := files p; writable := writable p;
     world := w; invocations := invocations p ++ [i]; log := log p |}.

Definition with_log (l : log_line) (p : process) : process :=
  {| environ := environ p; files := files p; writable := writable p;
     world := world p; invocations := invocations p; log := log p ++ [l] |}.

Definition with_file (path : string) (content : list byte) (p : process)
  : process :=
  {| environ := environ p; files := <[path := content]> (files p);
     writable := writable p; world := world p;
     invocations := invocations p; log := log p |}.

(** [VLOG(level) << text] *)
Definition VLOG (level : Z) (text : string) (p : process) : process :=
  if VLOG_IS_ON level
  then with_log {| log_severity := VERBOSE level; log_text := text |} p
  else p.

(** [LOG(WARNING) << text] *)
Definition LOG_WARNING (text : string) (p : process) : process :=
  with_log {| log_severity := WARNING; log_text := text |} p.

(** [func(params, timer, tuning_result)] *)
Definition call (func : kernel) (params : list param_type)
    (timer : option Timer) (tuning_result : option (list param_type))
    (p : process) : kernel_result * process :=
  let r := func params timer tuning_result (world p) in
  (r, with_world (kr_world r)
        {| inv_params := params; inv_timer := timer;
           inv_buffer := tuning_result; inv_result := r |} p).

(** *** The tuner object *)

Record Tuner := {
  path_ : option string;
  param_table_ : gmap string (list param_type)
}.

Definition with_table (table : gmap string (list param_type)) (t : Tuner)
  : Tuner :=
  {| path_ := path_ t; param_table_ := table |}.

(** [param_table_[key]] read: the entry, created empty when absent. *)
Definition subscript (table : gmap string (list param_type)) (key : string)
  : list param_type * gmap string (list param_type) :=
  match table !! key with
  | Some v => (v, table)
  | None => ([], <[key := []]> table)
  end.

Definition IsTuning (p : process) : bool :=
  match environ p "MACE_TUNING" with
  | Some tuning =>
      Nat.eqb (String.length tuning) 1
      && bool_decide (String.get 0 tuning = Some "1"%char)
  | None => false
  end.

(** *** Run *)

(** The loop of [Run]: [res] is [None] until first assigned. *)
Fixpoint Run_loop (func : kernel) (params : list param_type) (timer : Timer)
    (num_runs : nat) (res : option RetType) (total_time_us : Z)
    (tuning_result : list param_type) (p : process)
  : option RetType * Z * list param_type * process :=
  match num_runs with
  | O => (res, total_time_us, tuning_result, p)
  | S n =>
      let '(r, p') := call func params (Some timer) (Some tuning_result) p in
      Run_loop func params timer n (Some (kr_res r))
        (Int.to_int64 (total_time_us + AccumulatedMicros timer (world p')))
        (kr_tuning_result r) p'
  end.

(** Returns [res], [*time_us], [*tuning_result] and the process. *)
Definition Run (func : kernel) (params : list param_type) (timer : Timer)
    (num_runs : Z) (tuning_result : list param_type) (p : process)
  : option RetType * Double.double * list param_type * process :=
  let '(res, total_time_us, tuning_result', p') :=
    Run_loop func params timer (Z.to_nat num_runs) None 0 tuning_result p in
  (res, Double.mean total_time_us num_runs, tuning_result', p').

(** *** Tune *)

(** The local variables of [Tune] and the in/out [*opt_params]. *)
Record tune_locals := {
  res : option RetType;
  opt_time : Double.double;
  opt_params : list param_type;
  tuning_result : list param_type
}.

Fixpoint Tune_loop (func : kernel) (timer : Timer)
    (params : list (list param_type)) (st : tune_locals) (p : process)
  : tune_locals * process :=
  match params with
  | [] => (st, p)
  | param :: rest =>
      (* warm up *)
      let '(_, _, buf1, p1) :=
        Run func param timer 2 (tuning_result st) p in
      (* run *)
      let '(tmp_res, tmp_time, buf2, p2) :=
        Run func param timer 10 buf1 p1 in
      (* Check the execution time *)
      let st' :=
        if Double.ltb tmp_time (opt_time st)
        then {| res := tmp_res; opt_time := tmp_time;
                opt_params := buf2; tuning_result := buf2 |}
        else {| res := res st; opt_time := opt_time st;
                opt_params := opt_params st; tuning_result := buf2 |} in
      Tune_loop func timer rest st' p2
  end.

(** [Tune] up to its [return]: every local is still visible. *)
Definition Tune_locals (param_generator : generator) (func : kernel)
    (timer : Timer) (opt_params0 : list param_type) (p : process)
  : tune_locals * process :=
  Tune_loop func timer (param_generator tt)
    {| res := None; opt_time := Double.max;
       opt_params := opt_params0; tuning_result := [] |} p.

(** Returns [res], [*opt_params] and the process; [opt_params0] is the
    content of [*opt_params] on entry. *)
Definition Tune (param_generator : generator) (func : kernel)
    (timer : Timer) (opt_params0 : list param_type) (p : process)
  : option RetType * list param_type * process :=
  let '(st, p') := Tune_locals param_generator func timer opt_params0 p in
  (res st, opt_params st, p').

(** *** TuneOrRun *)

(** Returns the result ([None]: the [RetType res] that [Tune] never
    assigned), the tuner and the process. [timer] is the live [Timer]
    object the caller hands in. *)
Definition TuneOrRun (param_key : string) (default_param : list param_type)
    (param_generator : option generator) (func : kernel) (timer : Timer)
    (t : Tuner) (p : process) : option RetType * Tuner * process :=
  let obfucated_param_key := MACE_OBFUSCATE_SYMBOL param_key in
  match IsTuning p, param_generator with
  | true, Some param_generator =>
      (* tune *)
      let '(res, opt_param, p1) :=
        Tune param_generator func timer default_param p in
      let p2 :=
        VLOG 3 ("Tuning " ++ param_key ++ " retult: " ++ MakeString opt_param)
          p1 in
      (res, with_table (<[obfucated_param_key := opt_param]> (param_table_ t)) t,
       p2)
  | _, _ =>
      (* run *)
      if bool_decide (is_Some (param_table_ t !! obfucated_param_key))
      then
        let '(p1, table1) :=
          if VLOG_IS_ON 3
          then
            let '(shown, table1) :=
              subscript (param_table_ t) obfucated_param_key in
            (VLOG 3 (param_key ++ ": " ++ MakeString shown) p, table1)
          else (p, param_table_ t) in
        let '(cached, table2) := subscript table1 obfucated_param_key in
        let '(r, p2) := call func cached None None p1 in
        (Some (kr_res r), with_table table2 t, p2)
      else
        let p1 :=
          if MACE_DISABLE_NO_TUNING_WARNING then p
          else LOG_WARNING ("Fallback to default parameter: " ++ param_key) p in
        let '(r, p2) := call func default_param None None p1 in
        (Some (kr_res r), t, p2)
  end.

(** *** Persistence *)

(** [count] bytes of the vector's storage from [offset] on; reading past
    the end of the storage is undefined: [None]. *)
Definition read_storage (storage : list byte) (offset count : nat)
  : option (list byte) :=
  if decide (offset + count <= length storage)%nat
  then Some (take count (drop offset storage))
  else None.

(** The loop over [params]: for the element at [offset] of the storage,
    [ofs.write(reinterpret_cast<char *>(&param), sizeof(params_size))]. *)
Fixpoint write_params (storage : list byte) (offset : nat)
    (params : list param_type) : option (list byte) :=
  match params with
  | [] => Some []
  | _ :: rest =>
      match read_storage storage offset sizeof_int32,
            write_params storage (offset + sizeof_param_type) rest with
      | Some chunk, Some more => Some (chunk ++ more)
      | _, _ => None
      end
  end.

(** The contiguous storage of a vector. *)
Definition vector_storage (params : list param_type) : list byte :=
  concat (object_representation <$> params).

(** What the body of the loop over the table writes for one entry. *)
Definition write_entry (kp : string * list param_type) : option (list byte) :=
  let key_size := Int.to_int32 (Z.of_nat (String.length kp.1)) in
  let params := kp.2 in
  let params_size :=
    Int.to_int32 (Z.of_nat (length params) * Z.of_nat sizeof_param_type) in
  match write_params (vector_storage params) 0 params with
  | Some payload =>
      Some (Raw.encode byte_order sizeof_int32 key_size
            ++ take (Z.to_nat key_size) (list_byte_of_string kp.1)
            ++ Raw.encode byte_order sizeof_int32 params_size
            ++ payload)
  | None => None
  end.

Fixpoint write_entries (kps : list (string * list param_type))
  : option (list byte) :=
  match kps with
  | [] => Some []
  | kp :: rest =>
      match write_entry kp, write_entries rest with
      | Some bytes, Some more => Some (bytes ++ more)
      | _, _ => None
      end
  end.

(** Everything written between the opening and the closing of the file. *)
Definition write_table (table : gmap string (list param_type))
  : option (list byte) :=
  let num_pramas := Int.to_int64 (Z.of_nat (size table)) in
  match write_entries (iteration_order table) with
  | Some bytes => Some (Raw.encode byte_order sizeof_int64 num_pramas ++ bytes)
  | None => None
  end.

(** Per-entry verbose lines, in the order of the entries. *)
Fixpoint log_entries (kps : list (string * list param_type)) (p : process)
  : process :=
  match kps with
  | [] => p
  | kp :: rest =>
      log_entries rest
        (VLOG 3 ("Write tuning param: " ++ kp.1 ++ ": " ++ MakeString kp.2) p)
  end.

(** [None]: the write ran into undefined behaviour. *)
Definition WriteRunParameters (t : Tuner) (p : process) : option process :=
  match path_ t with
  | Some path =>
      let p1 := VLOG 3 ("Write tuning result to " ++ path) p in
      if writable p1 path
      then
        match write_table (param_table_ t) with
        | Some bytes =>
            Some (with_file path bytes
                    (log_entries (iteration_order (param_table_ t)) p1))
        | None => None
        end
      else Some (LOG_WARNING "Write run parameter file failed." p1)
  | None => Some p
  end.

Definition ReadRunParamters (t : Tuner) (p : process) : Tuner * process :=
  let '(success, table) :=
    GetTuningParams (path_ t) (files p) (param_table_ t) in
  (with_table table t,
   if success then p else LOG_WARNING "Get run parameter failed." p).

(** The constructor. *)
Definition Tuner_new (p : process) : Tuner * process :=
  ReadRunParamters
    {| path_ := environ p "MACE_RUN_PARAMETER_PATH"; param_table_ := ∅ |} p.

(** The destructor. *)
Definition Tuner_delete (t : Tuner) (p : process) : option process :=
  WriteRunParameters t p.
End Tuner.

Arguments Run : simpl never.

Arguments kernel : clear implicits.
Arguments generator : clear implicits.
Arguments kernel_result : clear implicits.
Arguments invocation : clear implicits.
Arguments process : clear implicits.
Arguments Tuner : clear implicits.
Arguments tune_locals : clear implicits.

(** ** The loader *)

Module Loader.
(** Modelled from the spec: one entry of the persisted layout, as read: key,
    payload byte length, values. *)
Record entry := {
  entry_key : string;
  entry_payload_byte_length : Z;
  entry_params : list Z
}.

(** Modelled from the spec: a signed integer of [w] bytes in host byte order
    at the head of the input; [None] when the input is too short. *)
Definition read_int (order : endianness) (w : nat) (bs : list byte)
  : option (Z * list byte) :=
  if decide (w <= length bs)%nat
  then Some (Raw.decode_signed order (take w bs), drop w bs)
  else None.

(** Modelled from the spec: [n] bytes at the head of the input; [None] when
    [n] is negative or the input is too short. *)
Definition read_bytes (n : Z) (bs : list byte)
  : option (list byte * list byte) :=
  if decide (0 <= n /\ (Z.to_nat n <= length bs)%nat)
  then Some (take (Z.to_nat n) bs, drop (Z.to_nat n) bs)
  else None.

(** Modelled from the spec: [count] raw [unsigned int] values of the
    payload. *)
Fixpoint read_params (order : endianness) (count : nat) (bs : list byte)
  : list Z :=
  match count with
  | O => []
  | S n =>
      Raw.decode_unsigned order (take sizeof_int32 bs)
      :: read_params order n (drop sizeof_int32 bs)
  end.

(** Modelled from the spec: one entry of the layout, int32 key length, key
    bytes, int32 payload length, payload; the payload length has to be a
    multiple of the width of a value. *)
Definition read_entry (order : endianness) (bs : list byte)
  : option (entry * list byte) :=
  '(key_byte_length, bs1) ← read_int order sizeof_int32 bs;
  '(key_bytes, bs2) ← read_bytes key_byte_length bs1;
  '(payload_byte_length, bs3) ← read_int order sizeof_int32 bs2;
  '(payload, bs4) ← read_bytes payload_byte_length bs3;
  if decide (payload_byte_length mod 4 = 0)
  then Some ({| entry_key := string_of_list_byte key_bytes;
                entry_payload_byte_length := payload_byte_length;
                entry_params :=
                  read_params order (Z.to_nat (payload_byte_length / 4))
                    payload |},
             bs4)
  else None.

(** Modelled from the spec: [entry_count] entries in a row. *)
Fixpoint read_entries (order : endianness) (entry_count : nat)
    (bs : list byte) : option (list entry) :=
  match entry_count with
  | O => Some []
  | S n =>
      '(e, bs') ← read_entry order bs;
      es ← read_entries order n bs';
      Some (e :: es)
  end.

(** Modelled from the spec: the whole file, int64 entry count and then the
    entries. *)
Definition read_file (order : endianness) (bs : list byte)
  : option (list entry) :=
  '(entry_count, bs') ← read_int order sizeof_int64 bs;
  if decide (0 <= entry_count)
  then read_entries order (Z.to_nat entry_count) bs'
  else None.

(** Modelled from the spec: the entries put into the table, in file order. *)
Definition fill (table : gmap string (list Z)) (es : list entry)
  : gmap string (list Z) :=
  foldl (fun t e => <[entry_key e := entry_params e]> t) table es.

(** Modelled from the spec: [GetTuningParams], which tuner.h declares
    [extern] for tables of [unsigned int] and whose definition is not among
    the sources. It takes the persistence path and the table and returns
    success or failure. With no path configured nothing is read and that is
    no failure; a file that is missing or does not follow the persisted
    layout (int64 entry count, then per entry int32 key length, key bytes,
    int32 payload length, payload of raw values) is a failure and leaves the
    table as it was. *)
Definition GetTuningParams (order : endianness) (path : option string)
    (files : gmap string (list byte)) (table : gmap string (list Z))
  : bool * gmap string (list Z) :=
  match path with
  | None => (true, table)
  | Some path =>
      match files !! path with
      | None => (false, table)
      | Some bs =>
          match read_file order bs with
          | Some es => (true, fill table es)
          | None => (false, table)
          end
      end
  end.
End Loader.

(** ** Instances *)

(** [unsigned int] and [uint64_t] on a host of the given byte order. *)
Definition unsigned_int (order : endianness) : ParamType Z :=
  {| sizeof_param_type := 4; object_representation := Raw.encode order 4 |}.


(** A host: the timer is a counter kept in the world, keys are not obfuscated,
    verbose logging is off; the table is iterated in the order [visit]. *)
Definition host_visiting (order : endianness) (no_tuning_warning_disabled : bool)
    (visit : gmap string (list Z) -> list (string * list Z))
    (visit_entries : forall table, visit table ≡ₚ map_to_list table)
  : Collaborators Z Z unit :=
  {| byte_order := order;
     MACE_OBFUSCATE_SYMBOL := fun s => s;
     MakeString := fun _ => EmptyString;
     VLOG_IS_ON := fun _ => false;
     MACE_DISABLE_NO_TUNING_WARNING := no_tuning_warning_disabled;
     AccumulatedMicros := fun _ w => w;
     GetTuningParams := Loader.GetTuningParams order;
     iteration_order := visit;
     iteration_order_entries := visit_entries |}.

(** The host whose container iterates in the order of the model's map. *)
Definition host (order : endianness) (no_tuning_warning_disabled : bool)
  : Collaborators Z Z unit :=
  host_visiting order no_tuning_warning_disabled map_to_list
    (fun table => Permutation_refl (map_to_list table)).

(** The host whose container iterates in the opposite order. *)
Definition host_backwards (order : endianness) (no_tuning_warning_disabled : bool)
  : Collaborators Z Z unit :=
  host_visiting order no_tuning_warning_disabled
    (fun table => reverse (map_to_list table))
    (fun table => reverse_Permutation (map_to_list table)).

Module Sample.
(** A kernel that takes [cost params] microseconds, reports the parameters
    it ran with in the output buffer and returns their sum. *)
Definition reporting (cost : list Z -> Z) : kernel Z Z Z unit :=
  fun params _ _ _ =>
    {| kr_res := foldr Z.add 0 params; kr_tuning_result := params;
       kr_world := cost params |}.

(** A kernel that never writes to the output buffer. *)
Definition silent (cost : list Z -> Z) : kernel Z Z Z unit :=
  fun params _ buffer _ =>
    {| kr_res := foldr Z.add 0 params;
       kr_tuning_result := match buffer with Some b => b | None => [] end;
       kr_world := cost params |}.

Definition getenv (tuning : option string) (path : option string)
  : string -> option string :=
  fun name =>
    if String.eqb name "MACE_TUNING" then tuning
    else if String.eqb name "MACE_RUN_PARAMETER_PATH" then path
    else None.

Definition boot (tuning path : option string) : process Z Z Z unit :=
  {| environ := getenv tuning path; files := ∅; writable := fun _ => true;
     world := 0; invocations := []; log := [] |}.

Definition tuner (path : option string) (table : gmap string (list Z))
  : Tuner Z :=
  {| path_ := path; param_table_ := table |}.

Definition table : gmap string (list Z) :=
  <["convK3" := [8; 8; 1]]> (<["gemmTile" := [4; 16]]> ∅).

(** A vector of [2 ^ 29] values, 2 GiB of [unsigned int], and a key of
    [2 ^ 31] characters. *)
Definition long_vector : list Z := replicate (Z.to_nat (2 ^ 29)) 0.

Definition long_key : string :=
  string_of_list_byte (replicate (Z.to_nat (2 ^ 31)) "a"%byte).
End Sample.

(** ** Tables of [unsigned int] vectors and the persisted layout *)

(** What its C++ type says of a table of [unsigned int] vectors, and the
    [gmap] of integers leaves open: every value is an [unsigned int], and the
    container holds fewer than [2 ^ 63] entries (its [max_size()] is below
    that on every platform). *)
Definition unsigned_int_table (table : gmap string (list Z)) : Prop :=
  Z.of_nat (size table) < 2 ^ 63 /\
  map_Forall (fun _ v => Forall (fun x => 0 <= x < 2 ^ 32) v) table.

(** Every key length and every payload byte length fits [int32_t], the type
    of the length fields. *)
Definition fits_int32 (table : gmap string (list Z)) : Prop :=
  map_Forall (fun k v =>
    Z.of_nat (String.length k) < 2 ^ 31 /\
    4 * Z.of_nat (length v) < 2 ^ 31) table.

(** The entry that the layout holds for a key and its vector. *)
Definition entry_of (kp : string * list Z) : Loader.entry :=
  {| Loader.entry_key := kp.1;
     Loader.entry_payload_byte_length := 4 * Z.of_nat (length kp.2);
     Loader.entry_params := kp.2 |}.

(** The bytes that the layout holds for a key and its vector of
    [unsigned int]. *)
Definition entry_bytes (order : endianness) (kp : string * list Z) : list byte :=
  Raw.encode order 4 (Z.of_nat (String.length kp.1))
  ++ list_byte_of_string kp.1
  ++ Raw.encode order 4 (4 * Z.of_nat (length kp.2))
  ++ vector_storage (ParamType0 := unsigned_int order) kp.2.

(** The bytes that the layout holds for the entries of a table, in the
    sequence given. *)
Definition table_bytes (order : endianness) (entries : list (string * list Z))
  : list byte :=
  Raw.encode order 8 (Z.of_nat (length entries))
  ++ concat (entry_bytes order <$> entries).

(** ** Vocabulary of the statements *)

Section Vocabulary.
Context {param_type RetType World Timer : Type}.
Context `{!Collaborators param_type World Timer}.

(** The timer reading taken after a recorded call. *)
Definition reading (timer : Timer)
    (i : invocation param_type RetType World Timer) : Z :=
  AccumulatedMicros timer (kr_world (inv_result i)).

Definition sum_readings (timer : Timer)
    (l : list (invocation param_type RetType World Timer)) : Z :=
  foldr (fun i acc => reading timer i + acc) 0 l.

(** What one turn of the loop of [Tune] learns about its candidate: the
    result and the time of the measured [Run], the output buffer after it,
    and the kernel calls the turn made. *)
Record probe := {
  o_param : list param_type;
  o_res : option RetType;
  o_time : Double.double;
  o_buffer : list param_type;
  o_calls : list (invocation param_type RetType World Timer)
}.

(** The two [Run]s of one turn of the loop, on the buffer and the process as
    the previous turn left them. *)
Definition probe_candidate (func : kernel param_type RetType World Timer)
    (timer : Timer) (param : list param_type) (buffer : list param_type)
    (p : process param_type RetType World Timer)
  : probe * process param_type RetType World Timer :=
  let '(_, _, buf1, p1) := Run func param timer 2 buffer p in
  let '(tmp_res, tmp_time, buf2, p2) := Run func param timer 10 buf1 p1 in
  ({| o_param := param; o_res := tmp_res; o_time := tmp_time;
      o_buffer := buf2;
      o_calls := drop (length (invocations p)) (invocations p2) |}, p2).

(** The turns of the loop over all candidates, in order. *)
Fixpoint probes (func : kernel param_type RetType World Timer) (timer : Timer)
    (params : list (list param_type)) (buffer : list param_type)
    (p : process param_type RetType World Timer) : list probe :=
  match params with
  | [] => []
  | param :: rest =>
      let '(o, p') := probe_candidate func timer param buffer p in
      o :: probes func timer rest (o_buffer o) p'
  end.

(** The comparison at the end of a turn. *)
Definition select (st : tune_locals param_type RetType) (o : probe)
  : tune_locals param_type RetType :=
  if Double.ltb (o_time o) (opt_time st)
  then {| res := o_res o; opt_time := o_time o;
          opt_params := o_buffer o; tuning_result := o_buffer o |}
  else {| res := res st; opt_time := opt_time st;
          opt_params := opt_params st; tuning_result := o_buffer o |}.

(** Two processes that differ at most in the world and the call history. *)
Definition same_surroundings (p p' : process param_type RetType World Timer)
  : Prop :=
  environ p' = environ p /\ files p' = files p /\ writable p' = writable p /\
  log p' = log p.

(** What a recorded call made by [Run] looks like: the candidate, the timer
    and a buffer were passed. *)
Definition run_call (params : list param_type) (timer : Timer)
    (i : invocation param_type RetType World Timer) : Prop :=
  inv_params i = params /\ inv_timer i = Some timer /\ is_Some (inv_buffer i).

(** The probe at position [w] has a time that no probe beats, and every probe
    before it has a strictly greater time. *)
Definition wins (os : list probe) (w : nat) (o : probe) : Prop :=
  os !! w = Some o /\
  (forall j o', os !! j = Some o' -> Double.ltb (o_time o') (o_time o) = false) /\
  (forall j o', (j < w)%nat -> os !! j = Some o' ->
     Double.ltb (o_time o) (o_time o') = true).

(** A call of [TuneOrRun] with its arguments. *)
Record request := {
  req_key : string;
  req_default : list param_type;
  req_generator : option (generator param_type);
  req_func : kernel param_type RetType World Timer;
  req_timer : Timer
}.

(** Calls of [TuneOrRun] one after the other on the same tuner. *)
Fixpoint serve (reqs : list request) (t : Tuner param_type)
    (p : process param_type RetType World Timer)
  : list (option RetType) * Tuner param_type
    * process param_type RetType World Timer :=
  match reqs with
  | [] => ([], t, p)
  | r :: rest =>
      let '(x, t1, p1) :=
        TuneOrRun (req_key r) (req_default r) (req_generator r) (req_func r)
          (req_timer r) t p in
      let '(xs, t2, p2) := serve rest t1 p1 in
      (x :: xs, t2, p2)
  end.

(** The kernel leaves the output buffer as it found it. *)
Definition never_writes (func : kernel param_type RetType World Timer) : Prop :=
  forall params timer buffer w,
    kr_tuning_result (func params timer (Some buffer) w) = buffer.
End Vocabulary.

Arguments probe : clear implicits.
Arguments request : clear implicits.

(** ** Further vocabulary: call chains and the life of the tuner *)

(** [uint16_t] on a host of the given byte order. *)
Definition uint16_t (order : endianness) : ParamType Z :=
  {| sizeof_param_type := 2; object_representation := Raw.encode order 2 |}.

Section Chains.
Context {param_type RetType World Timer : Type}.

(** The content of the output buffer after a run of recorded calls that
    started on [buffer]. *)
Definition end_buffer (buffer : list param_type)
    (l : list (invocation param_type RetType World Timer)) : list param_type :=
  from_option (fun i => kr_tuning_result (inv_result i)) buffer (last l).

(** The world after a run of recorded calls that started in [w]. *)
Definition end_world (w : World)
    (l : list (invocation param_type RetType World Timer)) : World :=
  from_option (fun i => kr_world (inv_result i)) w (last l).

(** A run of timed calls in which every call gets the timer, the output
    buffer as the call before it left it (the first one [buffer]), and runs in
    the world as the call before it left it (the first one in [w]). *)
Fixpoint threaded (func : kernel param_type RetType World Timer)
    (timer : Timer) (buffer : list param_type) (w : World)
    (l : list (invocation param_type RetType World Timer)) : Prop :=
  match l with
  | [] => True
  | i :: l' =>
      inv_timer i = Some timer /\ inv_buffer i = Some buffer /\
      inv_result i = func (inv_params i) (Some timer) (Some buffer) w /\
      threaded func timer (kr_tuning_result (inv_result i))
        (kr_world (inv_result i)) l'
  end.

(** [q] differs from [p] at most in the world, in the call history and by
    lines appended to the log. *)
Definition appends_log (p q : process param_type RetType World Timer) : Prop :=
  environ q = environ p /\ files q = files p /\ writable q = writable p /\
  exists more, log q = log p ++ more.
End Chains.

Section Lifetime.
Context {param_type RetType World Timer : Type}.
Context `{!ParamType param_type, !Collaborators param_type World Timer}.

(** The life of the singleton in a process: constructed at first access
    ([Get]), then the calls of [TuneOrRun], then destroyed at exit. [None]:
    the write at exit ran into undefined behaviour. *)
Definition lifetime (reqs : list (request param_type RetType World Timer))
    (p : process param_type RetType World Timer)
  : option (process param_type RetType World Timer) :=
  let '(t, p1) := Tuner_new p in
  let '(_, t', p2) := serve reqs t p1 in
  Tuner_delete t' p2.
End Lifetime.

(** * Properties *)

(** ** [double]: rounding never leaves the finite range on the tuner's means,
    and [<] orders the numbers *)

Module DoubleFacts.
Import Double.

Ltac order_cases :=
  unfold ltb, SFltb, SFcompare; intros;
  repeat match goal with
  | x : double |- _ => destruct x as [[]|[]| |[] ? ?]
  | x : spec_float |- _ => destruct x as [[]|[]| |[] ? ?]
  end; simpl in *; try done;
  change (Pos.compare_cont Eq) with Pos.compare in *;
  repeat match goal with
  | |- context [Z.compare ?a ?b] => destruct (Z.compare_spec a b)
  | H : context [Z.compare ?a ?b] |- _ => destruct (Z.compare_spec a b)
  | |- context [Pos.compare ?a ?b] => destruct (Pos.compare_spec a b)
  | H : context [Pos.compare ?a ?b] |- _ => destruct (Pos.compare_spec a b)
  end; simpl in *; try done; try lia.

Lemma digits2_pos_lt p : Zpos p < 2 ^ Zpos (digits2_pos p).
Proof.
  induction p as [p IH|p IH|]; simpl digits2_pos;
    rewrite ?Pos2Z.inj_succ, ?Z.pow_succ_r by lia; lia.
Qed.

Lemma digits2_pos_le p k : Zpos p < 2 ^ k -> Zpos (digits2_pos p) <= k.
Proof.
  revert k. induction p as [p IH|p IH|]; intros k Hk; simpl digits2_pos.
  - destruct (Z_lt_le_dec k 1) as [Hlt|Hge].
    + assert (2 ^ k <= 2 ^ 0) by (destruct (Z_lt_le_dec k 0); [rewrite Z.pow_neg_r by lia; lia | apply Z.pow_le_mono_r; lia]).
      simpl in *; lia.
    + replace k with (Z.succ (k - 1)) in Hk by lia. rewrite Z.pow_succ_r in Hk by lia.
      specialize (IH (k - 1)). rewrite Pos2Z.inj_succ. lia.
  - destruct (Z_lt_le_dec k 1) as [Hlt|Hge].
    + assert (2 ^ k <= 2 ^ 0) by (destruct (Z_lt_le_dec k 0); [rewrite Z.pow_neg_r by lia; lia | apply Z.pow_le_mono_r; lia]).
      simpl in *; lia.
    + replace k with (Z.succ (k - 1)) in Hk by lia. rewrite Z.pow_succ_r in Hk by lia.
      specialize (IH (k - 1)). rewrite Pos2Z.inj_succ. lia.
  - destruct (Z_lt_le_dec k 1) as [Hlt|Hge]; [|lia].
    assert (2 ^ k <= 2 ^ 0) by (destruct (Z_lt_le_dec k 0); [rewrite Z.pow_neg_r by lia; lia | apply Z.pow_le_mono_r; lia]).
    simpl in *; lia.
Qed.

Lemma Zdigits2_nonneg m : 0 <= Zdigits2 m.
Proof. destruct m; simpl; lia. Qed.

Lemma Zdigits2_succ m : 0 <= m -> Zdigits2 (m + 1) <= Zdigits2 m + 1.
Proof.
  intros Hm. destruct m as [|p|p]; [simpl; lia | | lia].
  replace (Z.pos p + 1) with (Z.pos (p + 1)) by lia. simpl.
  apply digits2_pos_le. pose proof (digits2_pos_lt p).
  rewrite Z.pow_add_r by lia. lia.
Qed.

Lemma shr_1_spec mrs :
  0 <= shr_m mrs ->
  0 <= shr_m (shr_1 mrs) /\ Zdigits2 (shr_m (shr_1 mrs)) = Z.max 0 (Zdigits2 (shr_m mrs) - 1).
Proof.
  destruct mrs as [m r s]; simpl. intros Hm.
  destruct m as [|[p|p|]|p]; simpl; try lia.
Qed.

Lemma iter_pos_shr_1 n mrs :
  0 <= shr_m mrs ->
  0 <= shr_m (SpecFloat.iter_pos shr_1 n mrs) /\
  Zdigits2 (shr_m (SpecFloat.iter_pos shr_1 n mrs)) = Z.max 0 (Zdigits2 (shr_m mrs) - Zpos n).
Proof.
  revert mrs. induction n as [n IH|n IH|]; intros mrs Hm; simpl SpecFloat.iter_pos.
  - destruct (shr_1_spec mrs Hm) as [H1 E1].
    destruct (IH _ H1) as [H2 E2]. destruct (IH _ H2) as [H3 E3].
    split; [done|]. rewrite E3, E2, E1. lia.
  - destruct (IH _ Hm) as [H2 E2]. destruct (IH _ H2) as [H3 E3].
    split; [done|]. rewrite E3, E2. lia.
  - apply shr_1_spec; done.
Qed.

Lemma fexp_unfold x : fexp prec emax x = Z.max (x - 53) (-1074).
Proof. reflexivity. Qed.

Lemma shr_m_of_loc m l : shr_m (shr_record_of_loc m l) = m.
Proof. destruct l as [|[]]; reflexivity. Qed.

Lemma shr_fexp_spec m e l mrs e' :
  0 <= m -> shr_fexp prec emax m e l = (mrs, e') ->
  0 <= shr_m mrs /\ e <= e' /\
  e' <= Z.max e (Z.max (Zdigits2 m + e - 53) (-1074)) /\
  Zdigits2 (shr_m mrs) + e' <= Z.max e' (Zdigits2 m + e).
Proof.
  intros Hm. unfold shr_fexp, shr. rewrite fexp_unfold.
  destruct (Z.max (Zdigits2 m + e - 53) (-1074) - e) as [|p|p] eqn:En;
    intros [= <- <-]; rewrite ?shr_m_of_loc; try lia.
  destruct (iter_pos_shr_1 p (shr_record_of_loc m l)) as [H1 E1];
    rewrite ?shr_m_of_loc in *; [done|]. rewrite E1. lia.
Qed.

Lemma round_nearest_even_spec m l :
  m <= round_nearest_even m l <= m + 1.
Proof. destruct l as [|[]]; simpl; try lia. destruct (Z.even m); lia. Qed.

Lemma Zdigits2_mono_succ m r : 0 <= m -> m <= r <= m + 1 -> Zdigits2 r <= Zdigits2 m + 1.
Proof.
  intros Hm Hr. assert (r = m \/ r = m + 1) as [->| ->] by lia.
  - lia.
  - by apply Zdigits2_succ.
Qed.

(** Outcome of the rounding step shared by conversion, product and quotient:
    with a non-negative significand whose magnitude is bounded by [V]
    ([Zdigits2 m + e <= V]) the result is a zero or a finite number whose
    exponent and magnitude stay bounded, as long as the bound stays below the
    overflow threshold [emax - prec = 971]. *)
Lemma binary_round_aux_spec s m e l V :
  0 <= m -> Zdigits2 m + e <= V ->
  Z.max e (Z.max (V - 52) (-1074)) <= 971 ->
  binary_round_aux prec emax s m e l = S754_zero s \/
  exists m' e', binary_round_aux prec emax s m e l = S754_finite s m' e' /\
    e' <= Z.max e (Z.max (V - 52) (-1074)) /\
    Zpos (digits2_pos m') + e' <= Z.max (e + 1) (Z.max (V + 1) (-1073)).
Proof.
  intros Hm HV Hb. unfold binary_round_aux.
  destruct (shr_fexp prec emax m e l) as [mrs1 e1] eqn:E1.
  destruct (shr_fexp_spec _ _ _ _ _ Hm E1) as (H1 & H2 & H3 & H4).
  pose proof (round_nearest_even_spec (shr_m mrs1) (loc_of_shr_record mrs1)) as Hr.
  set (r := round_nearest_even (shr_m mrs1) (loc_of_shr_record mrs1)) in *.
  pose proof (Zdigits2_mono_succ _ _ H1 Hr) as Hd.
  destruct (shr_fexp prec emax r e1 loc_Exact) as [mrs2 e2] eqn:E2.
  assert (0 <= r) as Hr0 by lia.
  destruct (shr_fexp_spec _ _ _ _ _ Hr0 E2) as (G1 & G2 & G3 & G4).
  destruct (shr_m mrs2) as [|p|p] eqn:Em; [by left | | lia].
  right. simpl in G4.
  assert (e2 <= 971) as He2 by lia.
  apply Z.leb_le in He2. change (emax - prec) with 971. rewrite He2.
  eexists _, _; split; [done|]. apply Z.leb_le in He2. lia.
Qed.

Lemma Zdigits2_le m k : 0 <= m < 2 ^ k -> Zdigits2 m <= k.
Proof.
  intros [H0 Hk]. destruct m as [|p|p]; simpl; [|by apply digits2_pos_le|lia].
  destruct (Z_lt_le_dec k 0); [rewrite Z.pow_neg_r in Hk by lia; lia | lia].
Qed.

Lemma Zdigits2_lt m : 0 <= m -> m < 2 ^ Zdigits2 m.
Proof. destruct m as [|p|p]; simpl Zdigits2; [simpl; lia | intros _; apply digits2_pos_lt | lia]. Qed.

Lemma Zdigits2_mono a b : 0 <= a <= b -> Zdigits2 a <= Zdigits2 b.
Proof. intros H. apply Zdigits2_le. pose proof (Zdigits2_lt b). lia. Qed.

Lemma digits2_pos_mul a b :
  Zpos (digits2_pos (a * b)) <= Zpos (digits2_pos a) + Zpos (digits2_pos b).
Proof.
  apply digits2_pos_le. rewrite Z.pow_add_r by lia. rewrite Pos2Z.inj_mul.
  pose proof (digits2_pos_lt a). pose proof (digits2_pos_lt b). nia.
Qed.

Lemma digits2_pos_iter_xO m d :
  Zpos (digits2_pos (Pos.iter xO m d)) = Zpos (digits2_pos m) + Zpos d.
Proof.
  induction d as [|d IH] using Pos.peano_ind.
  - simpl. lia.
  - rewrite Pos.iter_succ. simpl digits2_pos. lia.
Qed.

Lemma shl_align_spec mx ex ex' mz ez :
  shl_align mx ex ex' = (mz, ez) ->
  ez <= ex /\ Zpos (digits2_pos mz) + ez = Zpos (digits2_pos mx) + ex.
Proof.
  unfold shl_align. destruct (ex' - ex) as [|d|d] eqn:Ed; intros [= <- <-]; try lia.
  rewrite digits2_pos_iter_xO. lia.
Qed.

Lemma round_aux_small s m e l V :
  0 <= m -> Zdigits2 m + e <= V ->
  Z.max e (Z.max (V - 52) (-1074)) <= 971 ->
  small (Z.max e (Z.max (V - 52) (-1074))) (Z.max (e + 1) (Z.max (V + 1) (-1073)))
        (binary_round_aux prec emax s m e l).
Proof.
  intros Hm HV Hb.
  destruct (binary_round_aux_spec s m e l V Hm HV Hb) as [-> | (m' & e' & -> & H)];
    simpl; auto.
Qed.

Lemma small_weaken E V E' V' x : small E V x -> E <= E' -> V <= V' -> small E' V' x.
Proof. destruct x; simpl; auto; lia. Qed.

(** Conversion of a 64-bit signed integer. *)
Lemma of_int_small z : - 2 ^ 63 <= z < 2 ^ 63 -> small 12 65 (of_int z).
Proof.
  intros Hz. unfold of_int, binary_normalize.
  assert (forall s p, Zpos p <= 2 ^ 63 -> small 12 65 (binary_round prec emax s p 0)) as Hp.
  { intros s p Hp. unfold binary_round.
    destruct (shl_align p 0 _) as [mz ez] eqn:Es.
    apply shl_align_spec in Es as [Hez Hd].
    assert (Zpos (digits2_pos p) <= 64) by (apply digits2_pos_le; lia).
    eapply small_weaken; [apply (round_aux_small s (Zpos mz) ez loc_Exact 64)|..];
      simpl Zdigits2; lia. }
  destruct z as [|p|p]; [exact I | apply Hp; lia | apply Hp; lia].
Qed.

Lemma one_eq : one = S754_finite false 4503599627370496 (-52).
Proof. reflexivity. Qed.

Lemma mul_one_small E V x :
  small E V x -> Z.max (E - 52) (Z.max (V - 51) (-1074)) <= 971 ->
  small (Z.max (E - 52) (Z.max (V - 51) (-1074)))
        (Z.max (E - 51) (Z.max (V + 2) (-1073))) (mul x one).
Proof.
  intros Hx Hb. rewrite one_eq. destruct x as [s|s| |s m e]; simpl in Hx; try done.
  destruct Hx as [He HV]. unfold mul, SFmul.
  pose proof (digits2_pos_mul m 4503599627370496) as Hd.
  change (Zpos (digits2_pos 4503599627370496)) with 53 in Hd.
  eapply small_weaken;
    [apply (round_aux_small _ (Zpos (m * 4503599627370496)) (e + -52) loc_Exact (V + 1))|..];
    simpl Zdigits2; lia.
Qed.

Lemma div_core_spec m1 e1 m2 e2 q e' l :
  SFdiv_core_binary prec emax (Zpos m1) e1 (Zpos m2) e2 = (q, e', l) ->
  0 <= q /\ e' <= e1 - e2 /\ Zdigits2 q + e' <= Zpos (digits2_pos m1) + e1 - e2.
Proof.
  unfold SFdiv_core_binary. simpl Zdigits2.
  set (ee := Z.min _ _).
  assert (ee <= e1 - e2) as Hee by (unfold ee; lia).
  set (mm := match e1 - e2 - ee with 0 => Zpos m1 | Zpos _ => _ | Zneg _ => _ end).
  assert (0 <= mm /\ Zdigits2 mm + ee <= Zpos (digits2_pos m1) + e1 - e2) as [Hmm Hdm].
  { unfold mm. destruct (e1 - e2 - ee) as [|p|p] eqn:Es; simpl Zdigits2; [lia| |lia].
    rewrite Z.shiftl_mul_pow2 by lia. split; [lia|].
    assert (Zdigits2 (Zpos m1 * 2 ^ Zpos p) <= Zpos (digits2_pos m1) + Zpos p); [|lia].
    apply Zdigits2_le. split; [lia|]. rewrite Z.pow_add_r by lia.
    pose proof (digits2_pos_lt m1). nia. }
  pose proof (Z_div_mod mm (Zpos m2) eq_refl) as Hdiv.
  destruct (Z.div_eucl mm (Zpos m2)) as [q0 r0]. intros [= <- <- <-].
  assert (0 <= q0 <= mm) as Hq by nia.
  pose proof (Zdigits2_mono q0 mm Hq). lia.
Qed.

Lemma div_small E V x s2 m2 e2 :
  small E V x ->
  Z.max (E - e2) (Z.max (V - e2 - 52) (-1074)) <= 971 ->
  small (Z.max (E - e2) (Z.max (V - e2 - 52) (-1074)))
        (Z.max (E - e2 + 1) (Z.max (V - e2 + 1) (-1073)))
        (div x (S754_finite s2 m2 e2)).
Proof.
  intros Hx Hb. destruct x as [s|s| |s m e]; simpl in Hx; try done.
  destruct Hx as [He HV]. unfold div, SFdiv.
  destruct (SFdiv_core_binary prec emax (Zpos m) e (Zpos m2) e2) as [[q e'] l] eqn:Ec.
  apply div_core_spec in Ec as (Hq & He' & Hd).
  eapply small_weaken; [apply (round_aux_small _ q e' l (V - e2))|..]; lia.
Qed.

Lemma small_not_nan E V x : small E V x -> is_nan x = false.
Proof. destruct x; simpl; done. Qed.

Lemma max_eq : max = S754_finite false 9007199254740991 971.
Proof. reflexivity. Qed.

Lemma small_lt_max E V x : small E V x -> E < 971 -> ltb x max = true.
Proof.
  rewrite max_eq. destruct x as [s|s| |[] m e]; try done.
  intros [He _] HE. unfold ltb, SFltb, SFcompare.
  destruct (Z.compare_spec e 971); [lia | done | lia].
Qed.

Lemma mean_10_small total : - 2 ^ 63 <= total < 2 ^ 63 -> small 64 117 (mean total 10).
Proof.
  intros Ht. unfold mean.
  change (of_int 10) with (S754_finite false 5629499534213120 (-49)).
  eapply small_weaken; [apply div_small; [apply mul_one_small; [by apply of_int_small|]|]|..]; lia.
Qed.

Lemma ltb_irrefl x : ltb x x = false.
Proof. order_cases. Qed.

Lemma ltb_trans x y z : ltb x y = true -> ltb y z = true -> ltb x z = true.
Proof. order_cases. Qed.

Lemma ltb_nlt_trans x y z :
  is_nan z = false -> ltb x y = true -> ltb z y = false -> ltb x z = true.
Proof. order_cases. Qed.

Lemma nlt_trans x y z :
  is_nan y = false -> ltb y x = false -> ltb z y = false -> ltb z x = false.
Proof. order_cases. Qed.

Lemma ltb_asym x y : ltb x y = true -> ltb y x = false.
Proof. order_cases. Qed.
End DoubleFacts.

(** ** [double]: the mean as a number

    The three roundings of [total * 1.0 / num_runs], followed through the
    significands. *)

Module MeanFacts.
Import Double DoubleFacts.

Lemma digits2_pos_ge p : 2 ^ (Zpos (digits2_pos p) - 1) <= Zpos p.
Proof.
  induction p as [p IH|p IH|]; simpl digits2_pos;
    rewrite ?Pos2Z.inj_succ;
    try (replace (Z.succ (Zpos (digits2_pos p)) - 1) with (Z.succ (Zpos (digits2_pos p) - 1)) by lia;
         rewrite Z.pow_succ_r by lia); simpl; lia.
Qed.

Lemma digits_53 m : Zpos (digits2_pos m) = 53 -> 2 ^ 52 <= Zpos m < 2 ^ 53.
Proof.
  intros E. pose proof (digits2_pos_ge m) as H1. pose proof (digits2_pos_lt m) as H2.
  rewrite E in H1, H2. exact (conj H1 H2).
Qed.

Lemma Zdigits2_ge m k : 0 <= k -> 2 ^ k <= m -> k + 1 <= Zdigits2 m.
Proof.
  intros Hk Hm. assert (0 < 2 ^ k) by (apply Z.pow_pos_nonneg; lia).
  pose proof (Zdigits2_lt m ltac:(lia)) as Hlt.
  pose proof (Zdigits2_nonneg m).
  destruct (Z_lt_le_dec k (Zdigits2 m)); [lia|].
  assert (2 ^ Zdigits2 m <= 2 ^ k) by (apply Z.pow_le_mono_r; lia). lia.
Qed.

Lemma shr_1_value mrs : 0 <= shr_m mrs -> shr_m (shr_1 mrs) = shr_m mrs / 2.
Proof.
  destruct mrs as [m r s]; simpl. intros Hm.
  destruct m as [|[p|p|]|p]; simpl shr_m; try lia.
  - reflexivity.
  - rewrite Pos2Z.inj_xI. apply Z.div_unique with 1; lia.
  - rewrite Pos2Z.inj_xO. apply Z.div_unique with 0; lia.
  - reflexivity.
Qed.

Lemma pow_xO n : 2 ^ Zpos n~0 = 2 ^ Zpos n * 2 ^ Zpos n.
Proof. replace (Zpos n~0) with (Zpos n + Zpos n) by lia. by rewrite Z.pow_add_r by lia. Qed.

Lemma pow_xI n : 2 ^ Zpos n~1 = 2 * (2 ^ Zpos n * 2 ^ Zpos n).
Proof.
  replace (Zpos n~1) with (1 + (Zpos n + Zpos n)) by lia.
  rewrite !Z.pow_add_r by lia. reflexivity.
Qed.

Lemma iter_pos_shr_1_value n mrs :
  0 <= shr_m mrs ->
  shr_m (SpecFloat.iter_pos shr_1 n mrs) = shr_m mrs / 2 ^ Zpos n.
Proof.
  revert mrs. induction n as [n IH|n IH|]; intros mrs Hm; simpl SpecFloat.iter_pos.
  - destruct (shr_1_spec mrs Hm) as [H1 _].
    destruct (iter_pos_shr_1 n _ H1) as [H2 _].
    rewrite IH, IH, shr_1_value by done.
    assert (0 < 2 ^ Zpos n) by (apply Z.pow_pos_nonneg; lia).
    rewrite !Z.div_div by lia. f_equal.
    rewrite (pow_xI n). lia.
  - destruct (iter_pos_shr_1 n _ Hm) as [H2 _].
    rewrite IH, IH by done.
    assert (0 < 2 ^ Zpos n) by (apply Z.pow_pos_nonneg; lia).
    rewrite !Z.div_div by lia. f_equal.
    rewrite (pow_xO n). lia.
  - by apply shr_1_value.
Qed.

(** What the shift to the target exponent does to a significand: it drops
    the [n] low-order bits that the format has no room for. *)
Lemma shr_fexp_exact m e l :
  0 <= m ->
  let n := Z.max 0 (fexp prec emax (Zdigits2 m + e) - e) in
  exists mrs, shr_fexp prec emax m e l = (mrs, e + n) /\
    shr_m mrs = m / 2 ^ n /\
    Zdigits2 (shr_m mrs) = Z.max 0 (Zdigits2 m - n) /\
    (n = 0 -> mrs = shr_record_of_loc m l).
Proof.
  intros Hm n. unfold shr_fexp, shr. subst n.
  pose proof (Zdigits2_nonneg m).
  destruct (fexp prec emax (Zdigits2 m + e) - e) as [|p|p] eqn:En.
  - eexists; split; [f_equal; lia|]. rewrite shr_m_of_loc, Z.div_1_r.
    split_and!; [done | lia | done].
  - destruct (iter_pos_shr_1 p (shr_record_of_loc m l)) as [H1 E1];
      rewrite ?shr_m_of_loc in *; [done|].
    eexists; split; [f_equal; lia|].
    rewrite iter_pos_shr_1_value, shr_m_of_loc by (by rewrite shr_m_of_loc).
    replace (Z.max 0 (Zpos p)) with (Zpos p) by lia.
    split_and!; [done | | lia].
    rewrite <- E1. f_equal. rewrite iter_pos_shr_1_value by (by rewrite shr_m_of_loc).
    by rewrite shr_m_of_loc.
  - eexists; split; [f_equal; lia|]. rewrite shr_m_of_loc.
    replace (Z.max 0 (Z.neg p)) with 0 by lia. rewrite Z.div_1_r.
    split_and!; [done | lia | done].
Qed.

(** The rounding step on a significand of at least 53 bits away from the
    subnormal and the overflow range: the result is a normal number, its
    significand has exactly 53 bits, and it is the significand given up to
    two units of the last place kept. *)
Lemma round_aux_normal s m e l :
  0 <= m -> 53 <= Zdigits2 m -> -1074 <= e -> Zdigits2 m + e <= 1000 ->
  exists m' k, binary_round_aux prec emax s m e l = S754_finite s m' (e + k) /\
    0 <= k <= Zdigits2 m - 52 /\ Zpos (digits2_pos m') = 53 /\
    2 ^ 51 * Z.abs (m - Zpos m' * 2 ^ k) <= Zpos m' * 2 ^ k.
Proof.
  intros Hm Hd He Hov. unfold binary_round_aux.
  destruct (shr_fexp_exact m e l Hm) as (mrs1 & -> & Ev1 & Ed1 & _).
  rewrite fexp_unfold in *.
  set (n1 := Z.max 0 (Z.max (Zdigits2 m + e - 53) (-1074) - e)) in *.
  assert (n1 = Zdigits2 m - 53) as En1 by lia.
  pose proof (round_nearest_even_spec (shr_m mrs1) (loc_of_shr_record mrs1)) as Hr.
  set (r := round_nearest_even (shr_m mrs1) (loc_of_shr_record mrs1)) in *.
  assert (0 < 2 ^ n1) as Hp1 by (apply Z.pow_pos_nonneg; lia).
  assert (0 <= shr_m mrs1) as Hm1 by (rewrite Ev1; apply Z.div_pos; lia).
  assert (Zdigits2 (shr_m mrs1) = 53) as Ed1' by lia.
  assert (53 <= Zdigits2 r <= 54) as Hdr.
  { split; [rewrite <- Ed1'; apply Zdigits2_mono; lia|].
    pose proof (Zdigits2_mono_succ _ _ Hm1 Hr). lia. }
  assert (0 <= r) as Hr0 by lia.
  destruct (shr_fexp_exact r (e + n1) loc_Exact Hr0) as (mrs2 & -> & Ev2 & Ed2 & _).
  rewrite fexp_unfold in *.
  set (n2 := Z.max 0 (Z.max (Zdigits2 r + (e + n1) - 53) (-1074) - (e + n1))) in *.
  assert (n2 = Zdigits2 r - 53) as En2 by lia.
  assert (0 < 2 ^ n2) as Hp2 by (apply Z.pow_pos_nonneg; lia).
  assert (Zdigits2 (shr_m mrs2) = 53) as Ed2' by lia.
  assert (0 <= shr_m mrs2) as Hm2 by (rewrite Ev2; apply Z.div_pos; lia).
  destruct (shr_m mrs2) as [|m'|m'] eqn:Em; [simpl in Ed2'; lia | | lia].
  assert (e + n1 + n2 <= 971) as Hle by lia.
  apply Z.leb_le in Hle. change (emax - prec) with 971. rewrite Hle.
  exists m', (n1 + n2). split; [f_equal; lia|]. split; [lia|]. split; [exact Ed2'|].
  pose proof (digits_53 m' Ed2') as Hm'.
  rewrite Z.pow_add_r by lia.
  pose proof (Z.mul_div_le m (2 ^ n1) Hp1) as B1.
  pose proof (Z.mul_succ_div_gt m (2 ^ n1) Hp1) as B2.
  pose proof (Z.mul_div_le r (2 ^ n2) Hp2) as B3.
  pose proof (Z.mul_succ_div_gt r (2 ^ n2) Hp2) as B4.
  rewrite <- Ev1 in B1, B2. rewrite <- Ev2 in B3, B4.
  set (P1 := 2 ^ n1) in *. set (P2 := 2 ^ n2) in *. set (M := Zpos m') in *.
  set (m1 := shr_m mrs1) in *.
  assert (1 <= P2) by lia.
  assert (M * (P1 * P2) <= m + P1 * P2) by nia.
  assert (m < (M + 2) * (P1 * P2)) by nia.
  assert (2 ^ 52 * (P1 * P2) <= M * (P1 * P2)) by nia.
  change (2 ^ 51) with 2251799813685248. change (2 ^ 52) with 4503599627370496 in *.
  lia.
Qed.

Lemma round_aux_exact s m e :
  Zpos (digits2_pos m) = 53 -> -1074 <= e <= 971 ->
  binary_round_aux prec emax s (Zpos m) e loc_Exact = S754_finite s m e.
Proof.
  intros Hd He. unfold binary_round_aux.
  destruct (shr_fexp_exact (Zpos m) e loc_Exact) as (mrs1 & E1 & _ & _ & R1); [lia|].
  rewrite fexp_unfold in *. simpl Zdigits2 in *. rewrite Hd in *.
  replace (Z.max 0 (Z.max (53 + e - 53) (-1074) - e)) with 0 in * by lia.
  rewrite E1, R1 by done. cbn [shr_record_of_loc loc_of_shr_record shr_m round_nearest_even].
  replace (e + 0) with e by lia.
  destruct (shr_fexp_exact (Zpos m) e loc_Exact) as (mrs2 & E2 & _ & _ & R2); [lia|].
  rewrite fexp_unfold in *. simpl Zdigits2 in *. rewrite Hd in *.
  replace (Z.max 0 (Z.max (53 + e - 53) (-1074) - e)) with 0 in * by lia.
  rewrite E2, R2 by done. cbn [shr_record_of_loc shr_m].
  replace (e + 0) with e by lia.
  assert (e <= 971) as Hle by lia. apply Z.leb_le in Hle.
  change (emax - prec) with 971. by rewrite Hle.
Qed.

Lemma Zpos_iter_xO m d : Zpos (Pos.iter xO m d) = Zpos m * 2 ^ Zpos d.
Proof.
  induction d as [|d IH] using Pos.peano_ind.
  - simpl. lia.
  - rewrite Pos.iter_succ, Pos2Z.inj_succ, Z.pow_succ_r, Pos2Z.inj_xO, IH by lia. lia.
Qed.

(** Alignment of a positive integer of at most 64 bits before conversion:
    the significand is the integer scaled by a power of two and has at least
    53 bits. *)
Lemma shl_align_of_int p :
  Zpos p <= 2 ^ 63 ->
  exists mz a, shl_align p 0 (fexp prec emax (Zpos (digits2_pos p) + 0)) = (mz, - a) /\
    0 <= a <= 52 /\ Zpos mz = Zpos p * 2 ^ a /\
    53 <= Zpos (digits2_pos mz) <= 64 /\
    (Zpos p < 2 ^ 53 -> Zpos (digits2_pos mz) = 53).
Proof.
  intros Hp. assert (Zpos (digits2_pos p) <= 64) as Hd by (apply digits2_pos_le; lia).
  unfold shl_align. rewrite fexp_unfold.
  destruct (Z.max (Zpos (digits2_pos p) + 0 - 53) (-1074) - 0) as [|d|d] eqn:Ed.
  - exists p, 0. split; [done|]. rewrite Z.mul_1_r. split_and!; try lia.
  - exists p, 0. split; [done|]. rewrite Z.mul_1_r. split_and!; try lia.
    intros Hlt. pose proof (digits2_pos_le p 53 Hlt). lia.
  - exists (Pos.iter xO p d), (Zpos d). split; [f_equal; lia|].
    rewrite Zpos_iter_xO, digits2_pos_iter_xO. split_and!; try lia.
Qed.

(** Conversion of a non-zero integer that fits 64 bits: a normal number
    whose value is the integer up to a relative error of [2 ^ -51]. *)
Lemma binary_round_of_int s p :
  Zpos p <= 2 ^ 63 ->
  exists m a k, binary_round prec emax s p 0 = S754_finite s m (- a + k) /\
    0 <= a <= 52 /\ 0 <= k <= 12 /\ Zpos (digits2_pos m) = 53 /\
    2 ^ 51 * Z.abs (Zpos p * 2 ^ a - Zpos m * 2 ^ k) <= Zpos m * 2 ^ k.
Proof.
  intros Hp. unfold binary_round.
  destruct (shl_align_of_int p Hp) as (mz & a & -> & Ha & Ev & Hd & _).
  destruct (round_aux_normal s (Zpos mz) (- a) loc_Exact) as (m & k & -> & Hk & Hdm & Hb);
    simpl Zdigits2; try lia.
  simpl Zdigits2 in Hk.
  exists m, a, k. rewrite <- Ev. split_and!; try done; try lia.
Qed.

(** Conversion of a positive integer below [2 ^ 53]: exact. *)
Lemma of_int_exact n :
  0 < n < 2 ^ 53 ->
  exists m b, of_int n = S754_finite false m (- b) /\
    0 <= b <= 52 /\ Zpos m = n * 2 ^ b /\ Zpos (digits2_pos m) = 53.
Proof.
  intros Hn. destruct n as [|p|p]; try lia. unfold of_int, binary_normalize, binary_round.
  destruct (shl_align_of_int p) as (mz & a & -> & Ha & Ev & _ & Hd); [lia|].
  exists mz, a. rewrite round_aux_exact by lia. split_and!; try done; try lia.
Qed.

Lemma mul_one_normal s m e :
  Zpos (digits2_pos m) = 53 -> -200 <= e <= 200 ->
  exists m' k, mul (S754_finite s m e) one = S754_finite s m' (e - 52 + k) /\
    0 <= k <= 54 /\ Zpos (digits2_pos m') = 53 /\
    2 ^ 51 * Z.abs (Zpos m * 2 ^ 52 - Zpos m' * 2 ^ k) <= Zpos m' * 2 ^ k.
Proof.
  intros Hd He. rewrite one_eq. unfold mul, SFmul. rewrite xorb_false_r.
  pose proof (digits_53 m Hd) as Hm.
  assert (Zpos (m * 4503599627370496) = Zpos m * 2 ^ 52) as Ev by (rewrite Pos2Z.inj_mul; reflexivity).
  rewrite Ev.
  assert (Zdigits2 (Zpos m * 2 ^ 52) = 105) as Ed.
  { apply Z.le_antisymm.
    - apply Zdigits2_le. change (2 ^ 105) with (2 ^ 53 * 2 ^ 52). lia.
    - apply (Zdigits2_ge _ 104); [lia|]. change (2 ^ 104) with (2 ^ 52 * 2 ^ 52). lia. }
  destruct (round_aux_normal s (Zpos m * 2 ^ 52) (e + -52) loc_Exact) as (m' & k & -> & Hk & Hdm & Hb);
    try lia.
  exists m', k. split; [f_equal; lia|]. split_and!; try done; lia.
Qed.

Lemma div_normal s m e mt et :
  Zpos (digits2_pos m) = 53 -> Zpos (digits2_pos mt) = 53 ->
  -200 <= e <= 200 -> -200 <= et <= 200 ->
  exists q m' k, div (S754_finite s m e) (S754_finite false mt et)
      = S754_finite s m' (e - et - 53 + k) /\
    0 <= k <= 2 /\ Zpos (digits2_pos m') = 53 /\
    q * Zpos mt <= Zpos m * 2 ^ 53 < (q + 1) * Zpos mt /\
    2 ^ 52 <= q /\
    2 ^ 51 * Z.abs (q - Zpos m' * 2 ^ k) <= Zpos m' * 2 ^ k.
Proof.
  intros Hd Hdt He Het. unfold div, SFdiv. rewrite xorb_false_r.
  pose proof (digits_53 m Hd) as Hm. pose proof (digits_53 mt Hdt) as Hmt.
  unfold SFdiv_core_binary. simpl Zdigits2. rewrite Hd, Hdt, fexp_unfold.
  replace (Z.min (Z.max (53 + e - (53 + et) - 53) (-1074)) (e - et)) with (e - et - 53) by lia.
  replace (e - et - (e - et - 53)) with 53 by lia.
  rewrite Z.shiftl_mul_pow2 by lia.
  pose proof (Z_div_mod (Zpos m * 2 ^ 53) (Zpos mt) eq_refl) as Hdiv.
  destruct (Z.div_eucl (Zpos m * 2 ^ 53) (Zpos mt)) as [q r].
  destruct Hdiv as [Eq Hr].
  change (2 ^ 53) with 9007199254740992 in *. change (2 ^ 52) with 4503599627370496 in *.
  assert (4503599627370496 <= q) as Hq.
  { destruct (Z_lt_le_dec q 4503599627370496) as [Hlt|]; [exfalso | done].
    assert (Zpos mt * (q + 1) <= Zpos mt * 4503599627370496)
      by (apply Z.mul_le_mono_nonneg_l; lia).
    lia. }
  assert (q < 18014398509481984) as Hq'.
  { destruct (Z_lt_le_dec q 18014398509481984) as [|Hge]; [done | exfalso].
    assert (Zpos mt * 18014398509481984 <= Zpos mt * q)
      by (apply Z.mul_le_mono_nonneg_l; lia).
    lia. }
  assert (53 <= Zdigits2 q <= 54) as Hdq.
  { split; [apply (Zdigits2_ge _ 52); [lia | exact Hq] | apply Zdigits2_le; split; [lia | exact Hq']]. }
  destruct (round_aux_normal s q (e - et - 53) (new_location (Zpos mt) r))
    as (m' & k & -> & Hk & Hdm & Hb); try lia.
  exists q, m', k. split_and!; try done; try lia.
Qed.
End MeanFacts.

(** *** From significands to numbers *)

Module ValueFacts.
Import Double DoubleFacts MeanFacts DoubleValue.

Lemma two_pow_pos e : (0 < 2 ^ e)%Q.
Proof. by apply Qpower_0_lt. Qed.

Lemma scale_pow m e k :
  0 <= k -> (inject_Z m * 2 ^ (e + k) == inject_Z (m * 2 ^ k) * 2 ^ e)%Q.
Proof.
  intros Hk. rewrite Qpower_plus by done.
  rewrite inject_Z_mult, Zpower_Qpower by done.
  change (inject_Z 2) with 2%Q. ring.
Qed.

(** An estimate between integers carries over to the numbers they are the
    significands of. *)
Lemma close_scale A B c e :
  0 < c -> c * Z.abs (A - B) <= B ->
  (inject_Z c * (inject_Z A * 2 ^ e - inject_Z B * 2 ^ e) <= inject_Z B * 2 ^ e /\
   inject_Z c * (inject_Z B * 2 ^ e - inject_Z A * 2 ^ e) <= inject_Z B * 2 ^ e /\
   0 <= inject_Z B * 2 ^ e)%Q.
Proof.
  intros Hc Hab. pose proof (two_pow_pos e) as HP. set (P := (2 ^ e)%Q) in *.
  assert (c * (A - B) <= B) as H1 by lia.
  assert (c * (B - A) <= B) as H2 by lia.
  assert (0 <= B) as H3 by lia.
  rewrite Zle_Qle in H1, H2, H3.
  rewrite inject_Z_mult in H1, H2. unfold Z.sub in H1, H2.
  rewrite inject_Z_plus, inject_Z_opp in H1, H2.
  set (a := inject_Z A) in *. set (b := inject_Z B) in *. set (cc := inject_Z c) in *.
  change (inject_Z 0) with 0%Q in H3.
  split_and!; nra.
Qed.

Lemma close_values A B c e ka kb :
  0 < c -> 0 <= ka -> 0 <= kb ->
  c * Z.abs (A * 2 ^ ka - B * 2 ^ kb) <= B * 2 ^ kb ->
  (inject_Z c * (inject_Z A * 2 ^ (e + ka) - inject_Z B * 2 ^ (e + kb))
     <= inject_Z B * 2 ^ (e + kb) /\
   inject_Z c * (inject_Z B * 2 ^ (e + kb) - inject_Z A * 2 ^ (e + ka))
     <= inject_Z B * 2 ^ (e + kb) /\
   0 <= inject_Z B * 2 ^ (e + kb))%Q.
Proof.
  intros Hc Hka Hkb H. rewrite (scale_pow A e ka), (scale_pow B e kb) by done.
  by apply close_scale.
Qed.
(** The three roundings of [total * 1.0 / num_runs] on a non-zero total of
    magnitude [p]: the result is a normal number of the sign of the total, and
    [num_runs] times its magnitude is [p] up to a relative error of
    [2 ^ -48]. *)
Lemma mean_magnitude s p n :
  Zpos p <= 2 ^ 63 -> 0 < n < 2 ^ 53 ->
  exists m e,
    div (mul (binary_round prec emax s p 0) one) (of_int n) = S754_finite s m e /\
    (Qabs (inject_Z (Zpos m) * 2 ^ e * inject_Z n - inject_Z (Zpos p))
     <= inject_Z (Zpos p) * (1 # 281474976710656))%Q.
Proof.
  intros Hp Hn.
  destruct (binary_round_of_int s p Hp) as (m1 & a & k1 & -> & Ha & Hk1 & Hd1 & B1).
  destruct (mul_one_normal s m1 (- a + k1) Hd1) as (m2 & k2 & -> & Hk2 & Hd2 & B2); [lia|].
  destruct (of_int_exact n Hn) as (mt & b & -> & Hb & Emt & Hdt).
  destruct (div_normal s m2 (- a + k1 - 52 + k2) mt (- b) Hd2 Hdt)
    as (q & m3 & k3 & -> & Hk3 & Hd3 & Hq & Hq52 & B3); [lia | lia |].
  eexists _, _; split; [reflexivity|].
  set (e2 := - a + k1 - 52 + k2) in *.
  (* conversion *)
  destruct (close_values (Zpos p) (Zpos m1) (2 ^ 51) (- a) a k1)
    as (C1 & C1' & C1''); [done | lia | lia | done |].
  replace (- a + a) with 0 in * by lia.
  (* product with 1.0 *)
  destruct (close_values (Zpos m1) (Zpos m2) (2 ^ 51) (- a + k1 - 52) 52 k2)
    as (C2 & C2' & C2''); [done | lia | lia | done |].
  replace (- a + k1 - 52 + 52) with (- a + k1) in * by lia.
  fold e2 in C2, C2', C2''.
  (* quotient *)
  assert (2 ^ 50 * Z.abs (Zpos m2 * 2 ^ 53 - n * Zpos m3 * 2 ^ (b + k3))
          <= n * Zpos m3 * 2 ^ (b + k3)) as B3'.
  { rewrite Z.pow_add_r by lia.
    assert (0 < 2 ^ k3) by (apply Z.pow_pos_nonneg; lia).
    set (M3 := Zpos m3 * 2 ^ k3) in *. set (X := Zpos m2 * 2 ^ 53) in *.
    replace (n * Zpos m3 * (2 ^ b * 2 ^ k3)) with (Zpos mt * M3) by (unfold M3; lia).
    set (D := Z.abs (q - M3)) in *.
    change (2 ^ 50) with 1125899906842624. change (2 ^ 51) with 2251799813685248 in *.
    change (2 ^ 52) with 4503599627370496 in *.
    assert (0 <= D) by (unfold D; lia).
    assert (2251799813685248 <= M3) by (unfold D in *; lia).
    assert (Z.abs (X - Zpos mt * M3) <= Zpos mt + Zpos mt * D) as Habs.
    { assert (Z.abs (Zpos mt * q - Zpos mt * M3) = Zpos mt * D) as E.
      { unfold D. rewrite <- Z.mul_sub_distr_l, Z.abs_mul. lia. }
      lia. }
    assert (Zpos mt * (2251799813685248 * D) <= Zpos mt * M3)
      by (apply Z.mul_le_mono_nonneg_l; lia).
    assert (Zpos mt * 2251799813685248 <= Zpos mt * M3)
      by (apply Z.mul_le_mono_nonneg_l; lia).
    lia. }
  destruct (close_values (Zpos m2) (n * Zpos m3) (2 ^ 50) (e2 - 53) 53 (b + k3))
    as (C3 & C3' & C3''); [done | lia | lia | done |].
  replace (e2 - 53 + 53) with e2 in * by lia.
  replace (e2 - 53 + (b + k3)) with (e2 - - b - 53 + k3) in * by lia.
  rewrite inject_Z_mult in C3, C3', C3''.
  change (2 ^ 0)%Q with 1%Q in *.
  change (inject_Z (2 ^ 51)) with 2251799813685248%Q in *.
  change (inject_Z (2 ^ 50)) with 1125899906842624%Q in *.
  set (t0 := inject_Z (Zpos p)) in *.
  set (v1 := (inject_Z (Zpos m1) * 2 ^ (- a + k1))%Q) in *.
  set (v2 := (inject_Z (Zpos m2) * 2 ^ e2)%Q) in *.
  set (P3 := (2 ^ (e2 - - b - 53 + k3))%Q) in *.
  set (x3 := inject_Z (Zpos m3)) in *. set (nn := inject_Z n) in *.
  apply Qabs_Qle_condition.
  split; lra.
Qed.

(** [total * 1.0 / num_runs] is the quotient of the two integers, up to the
    rounding of the three operations. *)
Lemma mean_quotient total n :
  - 2 ^ 63 <= total < 2 ^ 63 -> 0 < n < 2 ^ 53 -> quotient (mean total n) total n.
Proof.
  intros Ht Hn. unfold mean. destruct total as [|p|p].
  - destruct (of_int_exact n Hn) as (mt & b & -> & _).
    split; [reflexivity|]. apply Qabs_Qle_condition.
    change (value _) with 0%Q. change (inject_Z 0) with 0%Q. change (Qabs 0) with 0%Q.
    split; lra.
  - destruct (mean_magnitude false p n) as (m & e & E & H); [lia | done |].
    change (of_int (Zpos p)) with (binary_round prec emax false p 0). rewrite E.
    split; [reflexivity | exact H].
  - destruct (mean_magnitude true p n) as (m & e & E & H); [lia | done |].
    change (of_int (Zneg p)) with (binary_round prec emax true p 0). rewrite E.
    split; [reflexivity|].
    apply Qabs_Qle_condition in H. apply Qabs_Qle_condition.
    change (value (S754_finite true m e)) with (- inject_Z (Zpos m) * 2 ^ e)%Q.
    change (Qabs (inject_Z (Zneg p))) with (inject_Z (Zpos p)).
    change (inject_Z (Zneg p)) with (- inject_Z (Zpos p))%Q.
    set (P := (2 ^ e)%Q) in *. set (x := inject_Z (Zpos m)) in *.
    set (nn := inject_Z n) in *. set (t0 := inject_Z (Zpos p)) in *.
    split; lra.
Qed.

End ValueFacts.

(** ** Machine integers and raw bytes *)

Module IntFacts.

Lemma wrap_range bits z : 0 < bits -> Int.in_range bits (Int.wrap bits z).
Proof.
  intros Hb. unfold Int.in_range, Int.wrap.
  assert (2 ^ bits = 2 * 2 ^ (bits - 1)) as E.
  { replace bits with (Z.succ (bits - 1)) at 1 by lia. rewrite Z.pow_succ_r; lia. }
  assert (0 < 2 ^ (bits - 1)) by (apply Z.pow_pos_nonneg; lia).
  pose proof (Z.mod_pos_bound (z + 2 ^ (bits - 1)) (2 ^ bits)). lia.
Qed.

Lemma wrap_id bits z : 0 < bits -> Int.in_range bits z -> Int.wrap bits z = z.
Proof.
  intros Hb [H1 H2]. unfold Int.wrap.
  assert (2 ^ bits = 2 * 2 ^ (bits - 1)) as E.
  { replace bits with (Z.succ (bits - 1)) at 1 by lia. rewrite Z.pow_succ_r; lia. }
  rewrite Z.mod_small; lia.
Qed.

Lemma wrap_mod bits z : 0 < bits -> Int.wrap bits (z mod 2 ^ bits) = Int.wrap bits z.
Proof.
  intros Hb. unfold Int.wrap. f_equal.
  assert (0 < 2 ^ bits) by (apply Z.pow_pos_nonneg; lia).
  rewrite Zplus_mod_idemp_l. reflexivity.
Qed.

Lemma wrap_add_r bits a b : 0 < bits ->
  Int.wrap bits (a + Int.wrap bits b) = Int.wrap bits (a + b).
Proof.
  intros Hb. unfold Int.wrap. f_equal.
  assert (0 < 2 ^ bits) by (apply Z.pow_pos_nonneg; lia).
  replace (a + ((b + 2 ^ (bits - 1)) mod 2 ^ bits - 2 ^ (bits - 1)) + 2 ^ (bits - 1))
    with (a + (b + 2 ^ (bits - 1)) mod 2 ^ bits) by lia.
  rewrite Zplus_mod_idemp_r. f_equal. lia.
Qed.

Lemma wrap_add_l bits a b : 0 < bits ->
  Int.wrap bits (Int.wrap bits a + b) = Int.wrap bits (a + b).
Proof. intros Hb. rewrite (Z.add_comm _ b), wrap_add_r, Z.add_comm; done. Qed.

Lemma to_int64_range z : - 2 ^ 63 <= Int.to_int64 z < 2 ^ 63.
Proof. apply (wrap_range 64 z). lia. Qed.

End IntFacts.

Module RawFacts.
Import Raw.

Lemma Z_of_byte_of_Z z : Z_of_byte (byte_of_Z z) = z mod 256.
Proof.
  unfold Z_of_byte, byte_of_Z.
  pose proof (Z.mod_pos_bound z 256 eq_refl) as Hm.
  destruct (Byte.of_N (Z.to_N (z mod 256))) as [b|] eqn:E.
  - apply Byte.to_of_N in E. rewrite E. lia.
  - apply Byte.of_N_None_iff in E. lia.
Qed.

Lemma Z_of_byte_range b : 0 <= Z_of_byte b < 256.
Proof. unfold Z_of_byte. pose proof (Byte.to_N_bounded b). lia. Qed.

Lemma length_le_bytes w z : length (le_bytes w z) = w.
Proof. revert z. induction w as [|w IH]; intros z; simpl; [done | by rewrite IH]. Qed.

Lemma le_value_le_bytes w z : le_value (le_bytes w z) = z mod 2 ^ (8 * Z.of_nat w).
Proof.
  revert z. induction w as [|w IH]; intros z.
  - simpl. by rewrite Z.mod_1_r.
  - cbn [le_bytes le_value]. rewrite Z_of_byte_of_Z, IH.
    replace (8 * Z.of_nat (S w)) with (8 + 8 * Z.of_nat w) by lia.
    rewrite Z.pow_add_r by lia. change (2 ^ 8) with 256.
    rewrite Z.rem_mul_r by lia. reflexivity.
Qed.

Lemma length_encode order w z : length (encode order w z) = w.
Proof. destruct order; simpl; rewrite ?length_rev; apply length_le_bytes. Qed.

Lemma decode_unsigned_encode order w z :
  decode_unsigned order (encode order w z) = z mod 2 ^ (8 * Z.of_nat w).
Proof.
  destruct order; simpl; rewrite ?rev_involutive; apply le_value_le_bytes.
Qed.

Lemma decode_signed_encode order w z :
  (0 < w)%nat -> Int.in_range (8 * Z.of_nat w) z ->
  decode_signed order (encode order w z) = z.
Proof.
  intros Hw Hz. unfold decode_signed.
  rewrite length_encode, decode_unsigned_encode, IntFacts.wrap_mod by lia.
  apply IntFacts.wrap_id; [lia | done].
Qed.

Lemma decode_unsigned_encode_small order w z :
  0 <= z < 2 ^ (8 * Z.of_nat w) -> decode_unsigned order (encode order w z) = z.
Proof. intros Hz. rewrite decode_unsigned_encode. by apply Z.mod_small. Qed.

End RawFacts.

(** ** The tuner *)

Section TunerFacts.
Context {param_type RetType World Timer : Type}.
Context `{!Collaborators param_type World Timer}.
Implicit Types (func : kernel param_type RetType World Timer).
Implicit Types (p : process param_type RetType World Timer).
Implicit Types (timer : Timer) (t : Tuner param_type).
Implicit Types (gen : generator param_type) (g : option (generator param_type)).
Implicit Types (k : string) (d : list param_type).
Implicit Types (i : invocation param_type RetType World Timer).
Implicit Types (l new : list (invocation param_type RetType World Timer)).

Lemma same_surroundings_refl p : same_surroundings p p.
Proof. by repeat split. Qed.

Lemma same_surroundings_trans p1 p2 p3 :
  same_surroundings p1 p2 -> same_surroundings p2 p3 -> same_surroundings p1 p3.
Proof. unfold same_surroundings. intros (?&?&?&?) (?&?&?&?). repeat split; congruence. Qed.

Lemma sum_readings_app timer l1 l2 :
  sum_readings timer (l1 ++ l2) = sum_readings timer l1 + sum_readings timer l2.
Proof. induction l1 as [|i l1 IH]; simpl; [done | rewrite IH; lia]. Qed.

Lemma Run_loop_spec func params timer n : forall res0 total buf p res' total' buf' p',
  Int.in_range 64 total ->
  Run_loop func params timer n res0 total buf p = (res', total', buf', p') ->
  exists new,
    invocations p' = invocations p ++ new /\ length new = n /\
    Forall (run_call params timer) new /\
    total' = Int.to_int64 (total + sum_readings timer new) /\
    res' = from_option (fun i => Some (kr_res (inv_result i))) res0 (last new) /\
    buf' = from_option (fun i => kr_tuning_result (inv_result i)) buf (last new) /\
    same_surroundings p p'.
Proof.
  induction n as [|n IH]; intros res0 total buf p res' total' buf' p' Ht.
  - intros [= <- <- <- <-]. exists []. simpl. rewrite app_nil_r, Z.add_0_r.
    repeat split; try done. symmetry. apply IntFacts.wrap_id; [lia | done].
  - simpl Run_loop. unfold call.
    set (r := func params (Some timer) (Some buf) (world p)).
    set (i := {| inv_params := params; inv_timer := Some timer;
                 inv_buffer := Some buf; inv_result := r |}).
    intros Hrun. apply IH in Hrun; [|apply IntFacts.to_int64_range].
    destruct Hrun as (new & Hinv & Hlen & Hall & Htot & Hres & Hbuf & Hsame).
    exists (i :: new).
    split; [|split; [|split; [|split; [|split; [|split]]]]].
    + rewrite Hinv. simpl. by rewrite <- app_assoc.
    + simpl. by rewrite Hlen.
    + constructor; [|done]. repeat split; eauto.
    + rewrite Htot. unfold Int.to_int64. rewrite IntFacts.wrap_add_l by lia.
      f_equal. simpl. unfold reading. simpl. lia.
    + rewrite Hres, last_cons. by destruct (last new).
    + rewrite Hbuf, last_cons. by destruct (last new).
    + eapply same_surroundings_trans; [|exact Hsame]. by repeat split.
Qed.

Lemma Run_spec func params timer num_runs buf p res' time' buf' p' :
  Run func params timer num_runs buf p = (res', time', buf', p') ->
  exists new,
    invocations p' = invocations p ++ new /\ length new = Z.to_nat num_runs /\
    Forall (run_call params timer) new /\
    time' = Double.mean (Int.to_int64 (sum_readings timer new)) num_runs /\
    res' = (fun i => kr_res (inv_result i)) <$> last new /\
    buf' = from_option (fun i => kr_tuning_result (inv_result i)) buf (last new) /\
    same_surroundings p p'.
Proof.
  unfold Run.
  destruct (Run_loop func params timer (Z.to_nat num_runs) None 0 buf p)
    as [[[r tt] b] q] eqn:E.
  intros [= <- <- <- <-].
  apply Run_loop_spec in E as (new & ? & ? & ? & -> & -> & ? & ?); [|done].
  exists new. rewrite Z.add_0_l. split_and!; done.
Qed.

Lemma probe_candidate_spec func timer param buf p o p' :
  probe_candidate func timer param buf p = (o, p') ->
  exists warm measured,
    invocations p' = invocations p ++ warm ++ measured /\
    o_calls o = warm ++ measured /\
    length warm = 2%nat /\ length measured = 10%nat /\
    Forall (run_call param timer) (warm ++ measured) /\
    o_param o = param /\
    o_time o = Double.mean (Int.to_int64 (sum_readings timer measured)) 10 /\
    o_res o = (fun i => kr_res (inv_result i)) <$> last measured /\
    Some (o_buffer o) = (fun i => kr_tuning_result (inv_result i)) <$> last measured /\
    same_surroundings p p'.
Proof.
  unfold probe_candidate.
  destruct (Run func param timer 2 buf p) as [[[r1 t1] b1] p1] eqn:E1.
  destruct (Run func param timer 10 b1 p1) as [[[r2 t2] b2] p2] eqn:E2.
  intros [= <- <-]. simpl.
  apply Run_spec in E1 as (warm & Hi1 & Hl1 & Hf1 & _ & _ & _ & Hs1).
  apply Run_spec in E2 as (measured & Hi2 & Hl2 & Hf2 & -> & -> & -> & Hs2).
  exists warm, measured. rewrite Hi2, Hi1, <- app_assoc, drop_app_length.
  split_and!; try done.
  - by apply Forall_app.
  - destruct (last measured) eqn:El; [done|].
    apply last_None in El. by subst measured.
  - by eapply same_surroundings_trans.
Qed.

Lemma tuning_result_select (st : tune_locals param_type RetType)
    (o : probe param_type RetType World Timer) :
  tuning_result (select st o) = o_buffer o.
Proof. unfold select. by destruct (Double.ltb _ _). Qed.

Lemma Tune_loop_cons func timer param rest st p :
  Tune_loop func timer (param :: rest) st p =
  Tune_loop func timer rest
    (select st (probe_candidate func timer param (tuning_result st) p).1)
    (probe_candidate func timer param (tuning_result st) p).2.
Proof.
  cbn [Tune_loop]. unfold probe_candidate, select.
  destruct (Run func param timer 2 (tuning_result st) p) as [[[r1 t1] b1] p1].
  destruct (Run func param timer 10 b1 p1) as [[[r2 t2] b2] p2].
  reflexivity.
Qed.

Lemma probes_cons func timer param rest buf p :
  probes func timer (param :: rest) buf p =
  (probe_candidate func timer param buf p).1
  :: probes func timer rest (o_buffer (probe_candidate func timer param buf p).1)
       (probe_candidate func timer param buf p).2.
Proof. cbn [probes]. by destruct (probe_candidate func timer param buf p). Qed.

(** The loop of [Tune] is the fold of [select] over the probes. *)
Lemma Tune_loop_probes func timer params : forall st p st' p',
  Tune_loop func timer params st p = (st', p') ->
  st' = foldl select st (probes func timer params (tuning_result st) p) /\
  invocations p' =
    invocations p ++ concat (o_calls <$> probes func timer params (tuning_result st) p) /\
  same_surroundings p p'.
Proof.
  induction params as [|param rest IH]; intros st p st' p'.
  - intros [= <- <-]. cbn [probes fmap list_fmap concat foldl].
    rewrite app_nil_r. split_and!; done.
  - rewrite Tune_loop_cons, probes_cons.
    destruct (probe_candidate func timer param (tuning_result st) p) as [o q] eqn:Ep.
    pose proof (probe_candidate_spec _ _ _ _ _ _ _ Ep)
      as (warm & measured & Hi & Hc & _ & _ & _ & _ & _ & _ & _ & Hs).
    cbn [fst snd]. intros Hloop. apply IH in Hloop as (-> & Hinv & Hsame).
    rewrite tuning_result_select in *. split_and!.
    + done.
    + rewrite Hinv, Hi. cbn [fmap list_fmap concat]. rewrite Hc.
      by rewrite <- !app_assoc.
    + by eapply same_surroundings_trans.
Qed.

Implicit Types (o : probe param_type RetType World Timer).
Implicit Types (os : list (probe param_type RetType World Timer)).
Implicit Types (st : tune_locals param_type RetType).

Lemma probes_params func timer params : forall buf p,
  o_param <$> probes func timer params buf p = params.
Proof.
  induction params as [|param rest IH]; intros buf p; [done|].
  rewrite probes_cons, fmap_cons, IH.
  destruct (probe_candidate func timer param buf p) as [o q] eqn:Ep.
  apply probe_candidate_spec in Ep as (? & ? & ? & ? & ? & ? & ? & Ho & ?).
  cbn [fst]. by rewrite Ho.
Qed.

Lemma probes_time_small func timer params : forall buf p,
  Forall (fun o => Double.small 64 117 (o_time o)) (probes func timer params buf p).
Proof.
  induction params as [|param rest IH]; intros buf p; [by constructor|].
  rewrite probes_cons. constructor; [|apply IH].
  destruct (probe_candidate func timer param buf p) as [o q] eqn:Ep.
  apply probe_candidate_spec in Ep as (? & ? & ? & ? & ? & ? & ? & ? & Ht & ?).
  cbn [fst]. rewrite Ht.
  apply DoubleFacts.mean_10_small, IntFacts.to_int64_range.
Qed.

Lemma select_snoc st os o : foldl select st (os ++ [o]) = select (foldl select st os) o.
Proof. by rewrite foldl_snoc. Qed.

(** The fold keeps the first probe among those of least time, when one is
    below the initial best time. *)
Lemma select_fold st os :
  Forall (fun o => Double.is_nan (o_time o) = false) os ->
  (res (foldl select st os) = res st /\
   opt_time (foldl select st os) = opt_time st /\
   opt_params (foldl select st os) = opt_params st /\
   Forall (fun o => Double.ltb (o_time o) (opt_time st) = false) os)
  \/
  (exists w o, wins os w o /\
     res (foldl select st os) = o_res o /\
     opt_time (foldl select st os) = o_time o /\
     opt_params (foldl select st os) = o_buffer o /\
     Double.ltb (o_time o) (opt_time st) = true).
Proof.
  induction os as [|o1 os IH] using rev_ind; intros Hnan.
  - left. simpl. by repeat split.
  - apply Forall_app in Hnan as [Hnan Ho1]. apply Forall_singleton in Ho1.
    rewrite select_snoc. unfold select at 1 3 5 7 9 11.
    destruct (IH Hnan) as [(Er & Et & Ep & Hall) | (w & o & (Hw & Hmin & Hfirst) & Er & Et & Ep & Hlt)].
    + rewrite Et. destruct (Double.ltb (o_time o1) (opt_time st)) eqn:E1; simpl.
      * right. exists (length os), o1. split; [unfold wins; split_and! | split_and!; try done].
        -- by rewrite lookup_app_r, Nat.sub_diag by lia.
        -- intros j o' Hj. apply lookup_app_Some in Hj as [Hj | [Hge Hj]].
           ++ apply DoubleFacts.ltb_asym.
              eapply DoubleFacts.ltb_nlt_trans; [|exact E1|].
              ** eapply Forall_lookup_1 in Hnan; [|exact Hj]. done.
              ** eapply Forall_lookup_1 in Hall; [|exact Hj]. done.
           ++ apply list_lookup_singleton_Some in Hj as [_ <-].
              apply DoubleFacts.ltb_irrefl.
        -- intros j o' Hlt Hj. rewrite lookup_app_l in Hj by lia.
           eapply DoubleFacts.ltb_nlt_trans; [|exact E1|].
           ** eapply Forall_lookup_1 in Hnan; [|exact Hj]. done.
           ** eapply Forall_lookup_1 in Hall; [|exact Hj]. done.
      * left. split_and!; try done. apply Forall_app. split; [done|].
        by apply Forall_singleton.
    + rewrite Et. pose proof (lookup_lt_Some _ _ _ Hw) as Hwlt.
      destruct (Double.ltb (o_time o1) (o_time o)) eqn:E1; simpl.
      * right. exists (length os), o1. split; [unfold wins; split_and! | split_and!; try done].
        -- by rewrite lookup_app_r, Nat.sub_diag by lia.
        -- intros j o' Hj. apply lookup_app_Some in Hj as [Hj | [Hge Hj]].
           ++ apply DoubleFacts.ltb_asym.
              eapply DoubleFacts.ltb_nlt_trans; [|exact E1|].
              ** eapply Forall_lookup_1 in Hnan; [|exact Hj]. done.
              ** by eapply Hmin.
           ++ apply list_lookup_singleton_Some in Hj as [_ <-].
              apply DoubleFacts.ltb_irrefl.
        -- intros j o' Hjl Hj. rewrite lookup_app_l in Hj by lia.
           eapply DoubleFacts.ltb_nlt_trans; [|exact E1|].
           ** eapply Forall_lookup_1 in Hnan; [|exact Hj]. done.
           ** by eapply Hmin.
        -- by eapply DoubleFacts.ltb_trans.
      * right. exists w, o. split; [unfold wins; split_and! | split_and!; done].
        -- by rewrite lookup_app_l by lia.
        -- intros j o' Hj. apply lookup_app_Some in Hj as [Hj | [Hge Hj]].
           ++ by eapply Hmin.
           ++ by apply list_lookup_singleton_Some in Hj as [_ <-].
        -- intros j o' Hjl Hj. rewrite lookup_app_l in Hj by lia.
           by eapply Hfirst.
Qed.

Lemma probes_spec func timer params : forall buf p,
  Forall (fun o => exists warm measured,
    o_calls o = warm ++ measured /\
    length warm = 2%nat /\ length measured = 10%nat /\
    Forall (run_call (o_param o) timer) (o_calls o) /\
    o_time o = Double.mean (Int.to_int64 (sum_readings timer measured)) 10 /\
    o_res o = (fun i => kr_res (inv_result i)) <$> last measured /\
    Some (o_buffer o) = (fun i => kr_tuning_result (inv_result i)) <$> last (o_calls o))
  (probes func timer params buf p).
Proof.
  induction params as [|param rest IH]; intros buf p; [by constructor|].
  rewrite probes_cons. constructor; [|apply IH].
  destruct (probe_candidate func timer param buf p) as [o q] eqn:Ep.
  apply probe_candidate_spec in Ep
    as (warm & measured & _ & Hc & Hw & Hm & Hf & Hp & Ht & Hr & Hb & _).
  cbn [fst]. exists warm, measured. rewrite Hp, Hc. split_and!; try done.
  rewrite Hb, last_app. destruct (last measured) eqn:El; [done|].
  apply last_None in El. by subst measured.
Qed.

Lemma Tune_locals_probes gen func timer d p :
  (Tune_locals gen func timer d p).1 =
    foldl select
      {| res := None; opt_time := Double.max; opt_params := d; tuning_result := [] |}
      (probes func timer (gen tt) [] p) /\
  invocations (Tune_locals gen func timer d p).2 =
    invocations p ++ concat (o_calls <$> probes func timer (gen tt) [] p) /\
  same_surroundings p (Tune_locals gen func timer d p).2.
Proof.
  unfold Tune_locals.
  destruct (Tune_loop func timer (gen tt) _ p) as [st' p'] eqn:E.
  by apply Tune_loop_probes in E.
Qed.

Lemma Tune_unfold gen func timer d p :
  Tune gen func timer d p =
  (res (Tune_locals gen func timer d p).1,
   opt_params (Tune_locals gen func timer d p).1,
   (Tune_locals gen func timer d p).2).
Proof. unfold Tune. by destruct (Tune_locals gen func timer d p). Qed.

(** With at least one candidate the session has a winner. *)
Lemma Tune_winner gen func timer d p :
  gen tt <> [] ->
  exists w o,
    wins (probes func timer (gen tt) [] p) w o /\
    res (Tune_locals gen func timer d p).1 = o_res o /\
    opt_time (Tune_locals gen func timer d p).1 = o_time o /\
    opt_params (Tune_locals gen func timer d p).1 = o_buffer o.
Proof.
  intros Hne. destruct (Tune_locals_probes gen func timer d p) as (-> & _ & _).
  pose proof (probes_time_small func timer (gen tt) [] p) as Hsmall.
  pose proof (probes_params func timer (gen tt) [] p) as Hparams.
  set (os := probes func timer (gen tt) [] p) in *.
  destruct (select_fold
              {| res := None; opt_time := Double.max; opt_params := d;
                 tuning_result := [] |} os)
    as [(_ & _ & _ & Hall) | (w & o & Hw & Hr & Ht & Hp & _)].
  - eapply Forall_impl; [exact Hsmall|]. intros o. apply DoubleFacts.small_not_nan.
  - destruct os as [|o os']; [by rewrite <- Hparams in Hne|].
    apply Forall_cons in Hall as [Ho _]. apply Forall_cons in Hsmall as [Hs _].
    cbn [opt_time] in Ho.
    rewrite (DoubleFacts.small_lt_max 64 117) in Ho; [done | done | lia].
  - by exists w, o.
Qed.

(** C2: for a non-empty candidate sequence, [Tune] returns the result and the
    parameter vector of a candidate whose measured mean time no candidate
    beats, and every candidate before it in generator order has a strictly
    greater mean time, so among equal least times the earliest wins; the best
    is replaced only on a strictly smaller time ([select]). *)
Theorem C2_selection_policy gen func timer d p :
  gen tt <> [] ->
  let os := probes func timer (gen tt) [] p in
  (Tune_locals gen func timer d p).1 =
    foldl select
      {| res := None; opt_time := Double.max; opt_params := d; tuning_result := [] |}
      os /\
  exists w o,
    wins os w o /\ gen tt !! w = Some (o_param o) /\
    (Tune gen func timer d p).1 = (o_res o, o_buffer o).
Proof.
  intros Hne os. split; [apply Tune_locals_probes|].
  destruct (Tune_winner gen func timer d p Hne) as (w & o & Hw & Hr & _ & Hp).
  exists w, o. split_and!; [done | |].
  - rewrite <- (probes_params func timer (gen tt) [] p), list_lookup_fmap.
    destruct Hw as [-> _]. done.
  - rewrite Tune_unfold. cbn [fst]. by rewrite Hr, Hp.
Qed.

(** C3: in a tuning session every candidate is run exactly 12 times, 2 warm-up
    calls and then 10 measured calls, each with the candidate, the timer and
    the shared buffer; the time compared for the selection is the arithmetic
    mean of the 10 measured timer readings alone: it is the [double] that
    [total * 1.0 / 10] evaluates to on the [int64_t] sum [total] of these
    readings, a number that is [total / 10] up to a relative error of
    [2 ^ -48], and [total] is the sum of the readings whenever that sum fits
    [int64_t]; the result kept for the candidate is that of the last measured
    call. *)
Theorem C3_warm_up_isolation gen func timer d p :
  let os := probes func timer (gen tt) [] p in
  o_param <$> os = gen tt /\
  invocations (Tune_locals gen func timer d p).2 =
    invocations p ++ concat (o_calls <$> os) /\
  (Tune_locals gen func timer d p).1 =
    foldl select
      {| res := None; opt_time := Double.max; opt_params := d; tuning_result := [] |}
      os /\
  Forall (fun o => exists warm measured,
    o_calls o = warm ++ measured /\
    length warm = 2%nat /\ length measured = 10%nat /\
    length (o_calls o) = 12%nat /\
    Forall (run_call (o_param o) timer) (o_calls o) /\
    o_time o = Double.mean (Int.to_int64 (sum_readings timer measured)) 10 /\
    DoubleValue.quotient (o_time o)
      (Int.to_int64 (sum_readings timer measured)) 10 /\
    (Int.in_range 64 (sum_readings timer measured) ->
     Int.to_int64 (sum_readings timer measured) = sum_readings timer measured) /\
    o_res o = (fun i => kr_res (inv_result i)) <$> last measured) os.
Proof.
  intros os. destruct (Tune_locals_probes gen func timer d p) as (H1 & H2 & _).
  split_and!; try done; [apply probes_params|].
  eapply Forall_impl; [apply probes_spec|]. cbv beta.
  intros o (warm & measured & Hc & Hw & Hm & Hf & Ht & Hr & _).
  exists warm, measured. split_and!; try done.
  - rewrite Hc, length_app. lia.
  - rewrite Ht. apply ValueFacts.mean_quotient; [apply IntFacts.to_int64_range | lia].
  - intros Hfit. by apply IntFacts.wrap_id.
Qed.

(** C6: when the generator yields no candidate, [Tune] leaves the
    best time at its initial value, which is the largest finite [double]
    ([std::numeric_limits<double>::max()]) and not +infinity, and leaves
    [*opt_params] as the caller passed it; no kernel call is made and the
    result is never assigned. *)
Theorem C6_empty_candidates gen func timer d p :
  gen tt = [] ->
  Tune_locals gen func timer d p =
    ({| res := None; opt_time := Double.max; opt_params := d; tuning_result := [] |}, p)
  /\ Double.max <> Double.infinity
  /\ Tune gen func timer d p = (None, d, p).
Proof.
  intros Hg. assert (Tune_locals gen func timer d p =
    ({| res := None; opt_time := Double.max; opt_params := d; tuning_result := [] |}, p)) as E
    by (unfold Tune_locals; by rewrite Hg).
  split_and!; [done | by rewrite DoubleFacts.max_eq | ].
  by rewrite Tune_unfold, E.
Qed.

(** *** TuneOrRun *)

Lemma with_table_same t : with_table (param_table_ t) t = t.
Proof. by destruct t. Qed.

Lemma subscript_present (table : gmap string (list param_type)) key v :
  table !! key = Some v -> subscript table key = (v, table).
Proof. unfold subscript. by intros ->. Qed.

Lemma warnings_app (l1 l2 : list log_line) :
  warnings (l1 ++ l2) = warnings l1 ++ warnings l2.
Proof. unfold warnings. by rewrite filter_app, fmap_app. Qed.

Lemma VLOG_surroundings level text p :
  environ (VLOG level text p) = environ p /\
  files (VLOG level text p) = files p /\
  writable (VLOG level text p) = writable p /\
  world (VLOG level text p) = world p /\
  invocations (VLOG level text p) = invocations p /\
  warnings (log (VLOG level text p)) = warnings (log p).
Proof.
  unfold VLOG. destruct (VLOG_IS_ON level); [|done].
  unfold with_log. cbn [environ files writable world invocations log].
  rewrite warnings_app. split_and!; try done.
  change (warnings [{| log_severity := VERBOSE level; log_text := text |}])
    with (@nil string).
  by rewrite app_nil_r.
Qed.

Lemma IsTuning_environ p p' : environ p' = environ p -> IsTuning p' = IsTuning p.
Proof. unfold IsTuning. by intros ->. Qed.

(** The tuning branch. *)
Lemma TuneOrRun_tune k d gen func timer t p :
  IsTuning p = true ->
  TuneOrRun k d (Some gen) func timer t p =
  ((Tune gen func timer d p).1.1,
   with_table
     (<[MACE_OBFUSCATE_SYMBOL k := (Tune gen func timer d p).1.2]> (param_table_ t)) t,
   VLOG 3 ("Tuning " ++ k ++ " retult: " ++ MakeString (Tune gen func timer d p).1.2)
     (Tune gen func timer d p).2).
Proof.
  intros Ht. unfold TuneOrRun. rewrite Ht.
  by destruct (Tune gen func timer d p) as [[r v] q].
Qed.

(** The replay branch on a key of the table. *)
Lemma TuneOrRun_hit k d g func timer t p cached :
  IsTuning p = false \/ g = None ->
  param_table_ t !! MACE_OBFUSCATE_SYMBOL k = Some cached ->
  exists p1,
    world p1 = world p /\ invocations p1 = invocations p /\
    environ p1 = environ p /\ files p1 = files p /\ writable p1 = writable p /\
    warnings (log p1) = warnings (log p) /\
    TuneOrRun k d g func timer t p =
      (Some (kr_res (func cached None None (world p))), t,
       (call func cached None None p1).2).
Proof.
  intros Hmode Hk.
  assert (TuneOrRun k d g func timer t p =
    if bool_decide (is_Some (param_table_ t !! MACE_OBFUSCATE_SYMBOL k))
    then
      let '(p1, table1) :=
        if VLOG_IS_ON 3
        then
          let '(shown, table1) :=
            subscript (param_table_ t) (MACE_OBFUSCATE_SYMBOL k) in
          (VLOG 3 (k ++ ": " ++ MakeString shown) p, table1)
        else (p, param_table_ t) in
      let '(cached, table2) := subscript table1 (MACE_OBFUSCATE_SYMBOL k) in
      let '(r, p2) := call func cached None None p1 in
      (Some (kr_res r), with_table table2 t, p2)
    else
      let p1 :=
        if MACE_DISABLE_NO_TUNING_WARNING then p
        else LOG_WARNING ("Fallback to default parameter: " ++ k) p in
      let '(r, p2) := call func d None None p1 in
      (Some (kr_res r), t, p2)) as ->.
  { unfold TuneOrRun. destruct Hmode as [-> | ->]; [done|]. by destruct (IsTuning p). }
  rewrite bool_decide_eq_true_2 by (by rewrite Hk).
  rewrite (subscript_present _ _ _ Hk).
  destruct (VLOG_IS_ON 3) eqn:Ev.
  - exists (VLOG 3 (k ++ ": " ++ MakeString cached) p).
    destruct (VLOG_surroundings 3 (k ++ ": " ++ MakeString cached) p)
      as (? & ? & ? & Hw & ? & ?).
    rewrite (subscript_present _ _ _ Hk). unfold call. rewrite Hw.
    split_and!; try done. by rewrite with_table_same.
  - exists p. rewrite (subscript_present _ _ _ Hk). unfold call.
    split_and!; try done. by rewrite with_table_same.
Qed.

(** The replay branch on a key that the table lacks. *)
Lemma TuneOrRun_miss k d g func timer t p :
  IsTuning p = false \/ g = None ->
  param_table_ t !! MACE_OBFUSCATE_SYMBOL k = None ->
  TuneOrRun k d g func timer t p =
    (Some (kr_res (func d None None (world p))), t,
     (call func d None None
        (if MACE_DISABLE_NO_TUNING_WARNING then p
         else LOG_WARNING ("Fallback to default parameter: " ++ k) p)).2).
Proof.
  intros Hmode Hk.
  assert (is_Some (param_table_ t !! MACE_OBFUSCATE_SYMBOL k) -> False) as Hn
    by (rewrite Hk; by intros [? ?]).
  unfold TuneOrRun.
  destruct Hmode as [-> | ->]; [|destruct (IsTuning p)];
    rewrite bool_decide_eq_false_2 by done; unfold call;
    by destruct MACE_DISABLE_NO_TUNING_WARNING.
Qed.

(** One call in replay mode: the kernel runs once, untimed and without
    buffer, on the cached vector or else on the default; the tuner is as
    before. *)
Lemma TuneOrRun_replay k d g func timer t p :
  IsTuning p = false \/ g = None ->
  exists i,
    (TuneOrRun k d g func timer t p).1.2 = t /\
    invocations (TuneOrRun k d g func timer t p).2 = invocations p ++ [i] /\
    inv_params i =
      default d (param_table_ t !! MACE_OBFUSCATE_SYMBOL k) /\
    inv_timer i = None /\ inv_buffer i = None /\
    inv_result i = func (inv_params i) None None (world p) /\
    (TuneOrRun k d g func timer t p).1.1 = Some (kr_res (inv_result i)) /\
    environ (TuneOrRun k d g func timer t p).2 = environ p /\
    warnings (log (TuneOrRun k d g func timer t p).2) =
      warnings (log p) ++
      match param_table_ t !! MACE_OBFUSCATE_SYMBOL k with
      | Some _ => []
      | None =>
          if MACE_DISABLE_NO_TUNING_WARNING then []
          else [("Fallback to default parameter: " ++ k)%string]
      end.
Proof.
  intros Hmode.
  destruct (param_table_ t !! MACE_OBFUSCATE_SYMBOL k) as [cached|] eqn:Hk.
  - destruct (TuneOrRun_hit k d g func timer t p cached Hmode Hk)
      as (p1 & Hw & Hi & He & _ & _ & Hl & ->).
    unfold call. cbn [fst snd with_world invocations environ log default].
    rewrite Hw, Hi, He, Hl, app_nil_r.
    by eexists {| inv_params := cached |}.
  - rewrite (TuneOrRun_miss k d g func timer t p Hmode Hk).
    unfold call. cbn [fst snd with_world invocations environ log default].
    destruct MACE_DISABLE_NO_TUNING_WARNING.
    + rewrite app_nil_r. by eexists {| inv_params := d |}.
    + unfold LOG_WARNING, with_log.
      cbn [invocations environ log world]. rewrite warnings_app.
      by eexists {| inv_params := d |}.
Qed.

(** C1: with the tuning flag set and a generator given, [TuneOrRun] runs the
    selection of [Tune] over the candidates, and when the generator yields at
    least one candidate the vector of the winning candidate is stored under
    the obfuscated key and the result of the winning candidate is returned;
    otherwise, when the obfuscated key is in the table, the kernel is called
    exactly once with the cached vector, a null timer and a null buffer and
    its result is returned; otherwise the kernel is called exactly once with
    the default vector and its result is returned, and a warning is logged
    unless the build defines [MACE_DISABLE_NO_TUNING_WARNING]. *)
Theorem C1_TuneOrRun_dispatch k d g func timer t p :
  let key := MACE_OBFUSCATE_SYMBOL k in
  let out := TuneOrRun k d g func timer t p in
  match IsTuning p, g with
  | true, Some gen =>
      out.1.1 = (Tune gen func timer d p).1.1 /\
      param_table_ out.1.2 =
        <[key := (Tune gen func timer d p).1.2]> (param_table_ t) /\
      path_ out.1.2 = path_ t /\
      invocations out.2 = invocations (Tune gen func timer d p).2 /\
      invocations out.2 =
        invocations p ++ concat (o_calls <$> probes func timer (gen tt) [] p) /\
      warnings (log out.2) = warnings (log p) /\
      (gen tt <> [] ->
       exists w o r,
         wins (probes func timer (gen tt) [] p) w o /\
         gen tt !! w = Some (o_param o) /\
         o_res o = Some r /\ out.1.1 = Some r /\
         param_table_ out.1.2 = <[key := o_buffer o]> (param_table_ t))
  | _, _ =>
      out.1.2 = t /\
      exists i,
        invocations out.2 = invocations p ++ [i] /\
        inv_timer i = None /\ inv_buffer i = None /\
        inv_result i = func (inv_params i) None None (world p) /\
        out.1.1 = Some (kr_res (inv_result i)) /\
        match param_table_ t !! key with
        | Some cached =>
            inv_params i = cached /\ warnings (log out.2) = warnings (log p)
        | None =>
            inv_params i = d /\
            warnings (log out.2) =
              warnings (log p) ++
              (if MACE_DISABLE_NO_TUNING_WARNING then []
               else [("Fallback to default parameter: " ++ k)%string])
        end
  end.
Proof.
  intros key out.
  assert (IsTuning p = false \/ g = None ->
    out.1.2 = t /\
    exists i,
      invocations out.2 = invocations p ++ [i] /\
      inv_timer i = None /\ inv_buffer i = None /\
      inv_result i = func (inv_params i) None None (world p) /\
      out.1.1 = Some (kr_res (inv_result i)) /\
      match param_table_ t !! key with
      | Some cached =>
          inv_params i = cached /\ warnings (log out.2) = warnings (log p)
      | None =>
          inv_params i = d /\
          warnings (log out.2) =
            warnings (log p) ++
            (if MACE_DISABLE_NO_TUNING_WARNING then []
             else [("Fallback to default parameter: " ++ k)%string])
      end) as Hreplay.
  { intros Hmode.
    destruct (TuneOrRun_replay k d g func timer t p Hmode)
      as (i & Ht & Hi & Hp & Htm & Hb & Hr & Hres & _ & Hl).
    split; [done|]. exists i. split_and!; try done.
    unfold key. destruct (param_table_ t !! MACE_OBFUSCATE_SYMBOL k).
    - by rewrite app_nil_r in Hl.
    - done. }
  destruct (IsTuning p) eqn:Et; [destruct g as [gen|]|]; [|by apply Hreplay; right|by apply Hreplay; left].
  clear Hreplay. subst out key. rewrite (TuneOrRun_tune k d gen func timer t p Et).
  cbn [fst snd with_table param_table_ path_].
  destruct (VLOG_surroundings 3
              ("Tuning " ++ k ++ " retult: " ++ MakeString (Tune gen func timer d p).1.2)
              (Tune gen func timer d p).2) as (_ & _ & _ & _ & Hi & Hl).
  destruct (Tune_locals_probes gen func timer d p) as (_ & Hcalls & (_ & _ & _ & Hlog)).
  split_and!; try done.
  - by rewrite Hi, Tune_unfold.
  - rewrite Hl, Tune_unfold. cbn [snd]. by rewrite Hlog.
  - intros Hne.
    destruct (Tune_winner gen func timer d p Hne) as (w & o & Hw & Hr & _ & Hp).
    pose proof (probes_spec func timer (gen tt) [] p) as Hspec.
    pose proof Hw as [Hlook _].
    eapply Forall_lookup_1 in Hspec; [|exact Hlook].
    destruct Hspec as (warm & measured & _ & _ & Hm & _ & _ & Hres & _).
    destruct (last measured) as [i|] eqn:El;
      [|apply last_None in El; by subst measured].
    exists w, o, (kr_res (inv_result i)). rewrite Tune_unfold. cbn [fst snd].
    rewrite Hr, Hp, Hres. split_and!; try done.
    rewrite <- (probes_params func timer (gen tt) [] p), list_lookup_fmap.
    by rewrite Hlook.
Qed.

(** C9: with the tuning flag set and a generator that yields no candidate,
    [TuneOrRun] still writes the table: the default vector is stored under the
    obfuscated key, whatever was cached there before; the kernel is not
    called. *)
Theorem C9_empty_generator_stores_default k d gen func timer t p :
  IsTuning p = true -> gen tt = [] ->
  let out := TuneOrRun k d (Some gen) func timer t p in
  param_table_ out.1.2 = <[MACE_OBFUSCATE_SYMBOL k := d]> (param_table_ t) /\
  param_table_ out.1.2 !! MACE_OBFUSCATE_SYMBOL k = Some d /\
  out.1.1 = None /\
  invocations out.2 = invocations p.
Proof.
  intros Ht Hg out. subst out. rewrite (TuneOrRun_tune k d gen func timer t p Ht).
  assert (Tune gen func timer d p = (None, d, p)) as ->.
  { rewrite Tune_unfold. unfold Tune_locals. by rewrite Hg. }
  cbn [fst snd with_table param_table_].
  split_and!; try done; [apply lookup_insert_eq|].
  apply VLOG_surroundings.
Qed.

Implicit Types (reqs : list (request param_type RetType World Timer)).

Lemma serve_replay reqs t : forall p,
  IsTuning p = false \/ Forall (fun r => req_generator r = None) reqs ->
  (serve reqs t p).1.2 = t /\
  environ (serve reqs t p).2 = environ p /\
  exists new,
    invocations (serve reqs t p).2 = invocations p ++ new /\
    Forall2 (fun r i =>
      inv_params i =
        default (req_default r)
          (param_table_ t !! MACE_OBFUSCATE_SYMBOL (req_key r)) /\
      inv_timer i = None /\ inv_buffer i = None) reqs new.
Proof.
  induction reqs as [|r rest IH]; intros p Hmode.
  - cbn [serve fst snd]. split_and!; try done. exists []. by rewrite app_nil_r.
  - cbn [serve].
    assert (IsTuning p = false \/ req_generator r = None) as Hr.
    { destruct Hmode as [?|Hall]; [by left | right]. by apply Forall_cons in Hall as [? _]. }
    destruct (TuneOrRun_replay (req_key r) (req_default r) (req_generator r)
                (req_func r) (req_timer r) t p Hr)
      as (i & Ht & Hi & Hp & Htm & Hb & _ & _ & He & _).
    destruct (TuneOrRun (req_key r) (req_default r) (req_generator r)
                (req_func r) (req_timer r) t p) as [[x t1] p1].
    cbn [fst snd] in Ht, Hi, He. subst t1.
    destruct (IH p1) as (Ht' & He' & new & Hi' & Hall').
    { destruct Hmode as [Hoff|Hall].
      - left. by rewrite (IsTuning_environ p p1 He).
      - right. by apply Forall_cons in Hall as [_ ?]. }
    destruct (serve rest t p1) as [[xs t2] p2].
    cbn [fst snd] in *. split_and!; [done | congruence |].
    exists (i :: new). split.
    + rewrite Hi', Hi. by rewrite <- app_assoc.
    + by constructor.
Qed.

(** C7: calls of [TuneOrRun] in replay mode (tuning flag off, or no generator
    given) leave the tuner, hence its table, as it was; so in a run of such
    calls every call passes the kernel the vector that the table held for its
    key at the start (or its default when the key is absent): calls for the
    same key get the same vector. *)
Theorem C7_replay_leaves_table reqs t p :
  IsTuning p = false \/ Forall (fun r => req_generator r = None) reqs ->
  (serve reqs t p).1.2 = t /\
  exists new,
    invocations (serve reqs t p).2 = invocations p ++ new /\
    Forall2 (fun r i =>
      inv_params i =
        default (req_default r)
          (param_table_ t !! MACE_OBFUSCATE_SYMBOL (req_key r)) /\
      inv_timer i = None /\ inv_buffer i = None) reqs new.
Proof.
  intros Hmode. destruct (serve_replay reqs t p Hmode) as (Ht & _ & Hnew). by split.
Qed.

(** *** A kernel that leaves the buffer alone *)

Lemma Run_loop_never_writes func params timer n :
  never_writes func ->
  forall r total buf p,
    (Run_loop func params timer n r total buf p).1.2 = buf.
Proof.
  intros Hnw. induction n as [|n IH]; intros r total buf p; [done|].
  cbn [Run_loop]. unfold call. rewrite IH. apply Hnw.
Qed.

Lemma Run_never_writes func params timer num_runs buf p :
  never_writes func -> (Run func params timer num_runs buf p).1.2 = buf.
Proof.
  intros Hnw. unfold Run.
  pose proof (Run_loop_never_writes func params timer (Z.to_nat num_runs) Hnw None 0 buf p) as E.
  by destruct (Run_loop func params timer (Z.to_nat num_runs) None 0 buf p) as [[[? ?] ?] ?].
Qed.

Lemma probe_candidate_never_writes func timer param buf p :
  never_writes func -> o_buffer (probe_candidate func timer param buf p).1 = buf.
Proof.
  intros Hnw. unfold probe_candidate.
  pose proof (Run_never_writes func param timer 2 buf p Hnw) as E1.
  destruct (Run func param timer 2 buf p) as [[[r1 t1] b1] p1].
  pose proof (Run_never_writes func param timer 10 b1 p1 Hnw) as E2.
  destruct (Run func param timer 10 b1 p1) as [[[r2 t2] b2] p2].
  cbn [fst snd o_buffer] in *. congruence.
Qed.

Lemma probes_never_writes func timer params :
  never_writes func ->
  forall buf p, Forall (fun o => o_buffer o = buf) (probes func timer params buf p).
Proof.
  intros Hnw. induction params as [|param rest IH]; intros buf p; [by constructor|].
  rewrite probes_cons. rewrite (probe_candidate_never_writes func timer param buf p Hnw).
  constructor; [by apply probe_candidate_never_writes | apply IH].
Qed.

(** C10: after a tuning session with at least one candidate, the vector
    stored in the table is the content of the shared output buffer as the last
    measured call of the winning candidate left it, whatever the candidate
    was; when the kernel never writes to the buffer the stored vector is
    empty. *)
Theorem C10_stored_vector_is_buffer k d gen func timer t p :
  IsTuning p = true -> gen tt <> [] ->
  let out := TuneOrRun k d (Some gen) func timer t p in
  let os := probes func timer (gen tt) [] p in
  (exists w o i,
     wins os w o /\ gen tt !! w = Some (o_param o) /\
     last (o_calls o) = Some i /\ out.1.1 = o_res o /\
     param_table_ out.1.2 !! MACE_OBFUSCATE_SYMBOL k =
       Some (kr_tuning_result (inv_result i))) /\
  (never_writes func ->
     param_table_ out.1.2 !! MACE_OBFUSCATE_SYMBOL k = Some []).
Proof.
  intros Ht Hne out os. subst out.
  rewrite (TuneOrRun_tune k d gen func timer t p Ht).
  cbn [fst snd with_table param_table_]. rewrite lookup_insert_eq, Tune_unfold.
  cbn [fst snd].
  destruct (Tune_winner gen func timer d p Hne) as (w & o & Hw & Hr & _ & Hp).
  fold os in Hw. rewrite Hr, Hp. pose proof Hw as [Hlook _].
  split.
  - pose proof (probes_spec func timer (gen tt) [] p) as Hspec.
    eapply Forall_lookup_1 in Hspec; [|exact Hlook].
    destruct Hspec as (warm & measured & _ & _ & _ & _ & _ & _ & Hb).
    destruct (last (o_calls o)) as [i|] eqn:El; [|done].
    exists w, o, i. split_and!; try done.
    rewrite <- (probes_params func timer (gen tt) [] p), list_lookup_fmap.
    fold os. by rewrite Hlook.
  - intros Hnw. pose proof (probes_never_writes func timer (gen tt) Hnw [] p) as Hall.
    eapply Forall_lookup_1 in Hall; [|exact Hlook]. by rewrite Hall.
Qed.
End TunerFacts.

(** ** Persistence *)

Section WriterFacts.
Context {param_type World Timer : Type}.
Context `{!ParamType param_type, !Collaborators param_type World Timer}.

Lemma vector_storage_app (l1 l2 : list param_type) :
  vector_storage (l1 ++ l2) = vector_storage l1 ++ vector_storage l2.
Proof. unfold vector_storage. by rewrite fmap_app, concat_app. Qed.

(** Whatever the width of [param_type], each value contributes
    [sizeof(params_size) = 4] bytes to the payload. *)
Lemma write_params_length (params : list param_type) : forall storage offset bytes,
  write_params storage offset params = Some bytes ->
  length bytes = (4 * length params)%nat.
Proof.
  induction params as [|x rest IH]; intros storage offset bytes.
  - by intros [= <-].
  - cbn [write_params]. unfold read_storage.
    destruct (decide _) as [Hle|]; [|done].
    destruct (write_params storage (offset + sizeof_param_type) rest) as [more|] eqn:E; [|done].
    intros [= <-]. apply IH in E. rewrite length_app, length_take, length_drop, E.
    unfold sizeof_int32 in *. cbn [length]. lia.
Qed.

(** With a [param_type] of the width of [int32_t] the payload is the storage
    of the vector. *)
Lemma write_params_word :
  sizeof_param_type = 4%nat ->
  (forall x : param_type, length (object_representation x) = 4%nat) ->
  forall rest before : list param_type,
    write_params (vector_storage (before ++ rest))
      (length (vector_storage before)) rest = Some (vector_storage rest).
Proof.
  intros Hsize Hrepr. induction rest as [|x rest IH]; intros before; [done|].
  cbn [write_params]. unfold read_storage, sizeof_int32.
  rewrite vector_storage_app.
  change (vector_storage (x :: rest))
    with (object_representation x ++ vector_storage rest).
  rewrite decide_True by (rewrite !length_app, Hrepr; lia).
  rewrite drop_app_length, (take_app_length' _ _ 4) by (by rewrite Hrepr).
  specialize (IH (before ++ [x])).
  assert (length (vector_storage (before ++ [x]))
          = (length (vector_storage before) + sizeof_param_type)%nat) as El.
  { rewrite vector_storage_app, length_app.
    change (vector_storage [x]) with (object_representation x ++ []).
    by rewrite app_nil_r, Hrepr, Hsize. }
  rewrite El, <- app_assoc, vector_storage_app in IH. cbn [app] in IH.
  change (vector_storage (x :: rest))
    with (object_representation x ++ vector_storage rest) in IH.
  by rewrite IH.
Qed.

Lemma write_entry_word (kp : string * list param_type) :
  sizeof_param_type = 4%nat ->
  (forall x : param_type, length (object_representation x) = 4%nat) ->
  write_entry kp =
    Some (Raw.encode byte_order 4 (Int.to_int32 (Z.of_nat (String.length kp.1)))
          ++ take (Z.to_nat (Int.to_int32 (Z.of_nat (String.length kp.1))))
               (list_byte_of_string kp.1)
          ++ Raw.encode byte_order 4 (Int.to_int32 (Z.of_nat (length kp.2) * 4))
          ++ vector_storage kp.2).
Proof.
  intros Hsize Hrepr. unfold write_entry.
  pose proof (write_params_word Hsize Hrepr kp.2 []) as E.
  cbn [app vector_storage fmap list_fmap concat length] in E.
  fold (vector_storage kp.2) in E. rewrite E, Hsize. reflexivity.
Qed.

(** The entry as written for any [param_type]: the length field announces
    [n * sizeof(param_type)] bytes, the payload has [n * 4]. *)
Lemma write_entry_payload (kp : string * list param_type) bytes :
  write_entry kp = Some bytes ->
  exists payload,
    bytes =
      Raw.encode byte_order 4 (Int.to_int32 (Z.of_nat (String.length kp.1)))
      ++ take (Z.to_nat (Int.to_int32 (Z.of_nat (String.length kp.1))))
           (list_byte_of_string kp.1)
      ++ Raw.encode byte_order 4
           (Int.to_int32 (Z.of_nat (length kp.2) * Z.of_nat sizeof_param_type))
      ++ payload /\
    length payload = (4 * length kp.2)%nat.
Proof.
  unfold write_entry.
  destruct (write_params (vector_storage kp.2) 0 kp.2) as [payload|] eqn:E; [|done].
  intros [= <-]. exists payload. split; [done|]. by eapply write_params_length.
Qed.
End WriterFacts.

Module LoaderFacts.
Import Loader.

Ltac fits :=
  unfold Int.in_range;
  change (8 * Z.of_nat 4 - 1) with 31; change (8 * Z.of_nat 8 - 1) with 63;
  lia.

Lemma length_list_byte_of_string (s : string) :
  length (list_byte_of_string s) = String.length s.
Proof.
  unfold list_byte_of_string. rewrite length_map.
  induction s as [|c s IH]; [done|]. cbn. by rewrite IH.
Qed.

Lemma read_int_encode order w z rest :
  (0 < w)%nat -> Int.in_range (8 * Z.of_nat w) z ->
  read_int order w (Raw.encode order w z ++ rest) = Some (z, rest).
Proof.
  intros Hw Hz. unfold read_int.
  rewrite decide_True by (rewrite length_app, RawFacts.length_encode; lia).
  rewrite take_app_length', drop_app_length' by (by rewrite RawFacts.length_encode).
  by rewrite RawFacts.decode_signed_encode.
Qed.

Lemma read_bytes_app (l rest : list byte) :
  read_bytes (Z.of_nat (length l)) (l ++ rest) = Some (l, rest).
Proof.
  unfold read_bytes. rewrite Nat2Z.id.
  rewrite decide_True by (rewrite length_app; lia).
  by rewrite take_app_length, drop_app_length.
Qed.

Lemma read_params_storage order (v : list Z) :
  Forall (fun x => 0 <= x < 2 ^ 32) v ->
  read_params order (length v)
    (vector_storage (ParamType0 := unsigned_int order) v) = v.
Proof.
  induction 1 as [|x v Hx Hv IH]; [done|].
  cbn [length read_params].
  change (vector_storage (x :: v))
    with (Raw.encode order 4 x ++ vector_storage (ParamType0 := unsigned_int order) v).
  unfold sizeof_int32.
  rewrite take_app_length', drop_app_length' by (by rewrite RawFacts.length_encode).
  rewrite RawFacts.decode_unsigned_encode_small by (change (2 ^ (8 * Z.of_nat 4)) with (2 ^ 32); lia).
  by rewrite IH.
Qed.

Lemma length_vector_storage order (v : list Z) :
  length (vector_storage (ParamType0 := unsigned_int order) v) = (4 * length v)%nat.
Proof.
  induction v as [|x v IH]; [done|].
  change (vector_storage (x :: v))
    with (Raw.encode order 4 x ++ vector_storage (ParamType0 := unsigned_int order) v).
  rewrite length_app, RawFacts.length_encode, IH. cbn [length]. lia.
Qed.

(** An entry within the bounds of the layout. *)
Lemma read_entry_bytes order (kp : string * list Z) rest :
  Z.of_nat (String.length kp.1) < 2 ^ 31 ->
  4 * Z.of_nat (length kp.2) < 2 ^ 31 ->
  Forall (fun x => 0 <= x < 2 ^ 32) kp.2 ->
  read_entry order (entry_bytes order kp ++ rest) = Some (entry_of kp, rest).
Proof.
  intros Hk Hv Hx. unfold read_entry, entry_bytes, sizeof_int32.
  rewrite <- !app_assoc.
  rewrite read_int_encode by fits. cbn [mbind option_bind].
  rewrite <- length_list_byte_of_string, read_bytes_app. cbn [mbind option_bind].
  rewrite read_int_encode by fits. cbn [mbind option_bind].
  replace (4 * Z.of_nat (length kp.2))
    with (Z.of_nat (length (vector_storage (ParamType0 := unsigned_int order) kp.2)))
    by (rewrite length_vector_storage; lia).
  rewrite read_bytes_app. cbn [mbind option_bind].
  rewrite length_vector_storage.
  replace (Z.of_nat (4 * length kp.2)) with (Z.of_nat (length kp.2) * 4) by lia.
  rewrite Z.mod_mul, decide_True, Z.div_mul, Nat2Z.id by lia.
  rewrite read_params_storage, string_of_list_byte_of_string by done.
  unfold entry_of. by rewrite Z.mul_comm.
Qed.

Lemma read_entries_bytes order (kps : list (string * list Z)) rest :
  Forall (fun kp =>
    Z.of_nat (String.length kp.1) < 2 ^ 31 /\
    4 * Z.of_nat (length kp.2) < 2 ^ 31 /\
    Forall (fun x => 0 <= x < 2 ^ 32) kp.2) kps ->
  read_entries order (length kps) (concat (entry_bytes order <$> kps) ++ rest)
  = Some (entry_of <$> kps).
Proof.
  induction 1 as [|kp kps (Hk & Hv & Hx) _ IH]; [done|].
  cbn [length read_entries fmap list_fmap concat]. rewrite <- app_assoc.
  rewrite read_entry_bytes by done. cbn [mbind option_bind].
  fold (fmap (M := list) (entry_bytes order) kps). rewrite IH. done.
Qed.

Lemma read_file_table_bytes order (entries : list (string * list Z)) :
  Z.of_nat (length entries) < 2 ^ 63 ->
  Forall (fun kp =>
    Z.of_nat (String.length kp.1) < 2 ^ 31 /\
    4 * Z.of_nat (length kp.2) < 2 ^ 31 /\
    Forall (fun x => 0 <= x < 2 ^ 32) kp.2) entries ->
  read_file order (table_bytes order entries) = Some (entry_of <$> entries).
Proof.
  intros Hsize Hall. unfold read_file, table_bytes, sizeof_int64.
  rewrite read_int_encode by fits. cbn [mbind option_bind].
  rewrite decide_True, Nat2Z.id by lia.
  rewrite <- (app_nil_r (concat _)).
  by apply read_entries_bytes.
Qed.

Lemma fill_lookup_other (l : list (string * list Z)) : forall table k,
  k ∉ l.*1 -> fill table (entry_of <$> l) !! k = table !! k.
Proof.
  induction l as [|[k1 v1] l IH]; intros table k Hk; [done|].
  cbn [fmap list_fmap fill foldl]. fold (fill (<[k1:=v1]> table) (entry_of <$> l)).
  rewrite fmap_cons in Hk. apply not_elem_of_cons in Hk as [Hne Hk].
  rewrite IH by done. by rewrite lookup_insert_ne.
Qed.

Lemma fill_lookup (l : list (string * list Z)) : forall table k v,
  NoDup l.*1 -> (k, v) ∈ l -> fill table (entry_of <$> l) !! k = Some v.
Proof.
  induction l as [|[k1 v1] l IH]; intros table k v Hnd Hin; [by apply elem_of_nil in Hin|].
  cbn [fmap list_fmap fill foldl]. fold (fill (<[k1:=v1]> table) (entry_of <$> l)).
  rewrite fmap_cons in Hnd. apply NoDup_cons in Hnd as [Hk1 Hnd].
  apply elem_of_cons in Hin as [[= -> ->] | Hin].
  - rewrite fill_lookup_other by done. apply lookup_insert_eq.
  - by apply IH.
Qed.

(** Filling an empty table with the entries of a table, met in any order,
    gives that table. *)
Lemma fill_entries (table : gmap string (list Z)) (entries : list (string * list Z)) :
  entries ≡ₚ map_to_list table ->
  fill ∅ (entry_of <$> entries) = table.
Proof.
  intros Hperm. apply map_eq. intros k. destruct (table !! k) as [v|] eqn:E.
  - apply fill_lookup.
    + rewrite Hperm. apply NoDup_fst_map_to_list.
    + rewrite Hperm. by apply elem_of_map_to_list.
  - rewrite fill_lookup_other; [done|].
    intros Hin. apply list_elem_of_fmap in Hin as ([k' v] & -> & Hin).
    rewrite Hperm in Hin. apply elem_of_map_to_list in Hin. cbn in E. congruence.
Qed.
End LoaderFacts.

Section PersistenceFacts.
Context {RetType World Timer : Type}.
Context `{!Collaborators Z World Timer}.
Implicit Types (t : Tuner Z) (p : process Z RetType World Timer).
Implicit Types (table : gmap string (list Z)).

Lemma write_entry_unsigned_int (kp : string * list Z) :
  Z.of_nat (String.length kp.1) < 2 ^ 31 ->
  4 * Z.of_nat (length kp.2) < 2 ^ 31 ->
  write_entry (ParamType0 := unsigned_int byte_order) kp
  = Some (entry_bytes byte_order kp).
Proof.
  intros Hk Hv.
  rewrite (write_entry_word (ParamType0 := unsigned_int byte_order));
    [|done|intros x; apply RawFacts.length_encode].
  unfold Int.to_int32.
  rewrite !IntFacts.wrap_id by (unfold Int.in_range; lia).
  rewrite take_ge by (rewrite LoaderFacts.length_list_byte_of_string; lia).
  unfold entry_bytes. by rewrite (Z.mul_comm 4).
Qed.

Lemma write_entries_unsigned_int (kps : list (string * list Z)) :
  Forall (fun kp =>
    Z.of_nat (String.length kp.1) < 2 ^ 31 /\
    4 * Z.of_nat (length kp.2) < 2 ^ 31 /\
    Forall (fun x => 0 <= x < 2 ^ 32) kp.2) kps ->
  write_entries (ParamType0 := unsigned_int byte_order) kps
  = Some (concat (entry_bytes byte_order <$> kps)).
Proof.
  induction 1 as [|kp kps (Hk & Hv & _) _ IH]; [done|].
  cbn [write_entries]. by rewrite write_entry_unsigned_int, IH.
Qed.

(** The loop over the table meets as many entries as the table has. *)
Lemma length_iteration_order table : length (iteration_order table) = size table.
Proof. by rewrite (iteration_order_entries table), length_map_to_list. Qed.

Lemma persistable_entries table :
  unsigned_int_table table -> fits_int32 table ->
  Z.of_nat (length (iteration_order table)) < 2 ^ 63 /\
  Forall (fun kp =>
    Z.of_nat (String.length kp.1) < 2 ^ 31 /\
    4 * Z.of_nat (length kp.2) < 2 ^ 31 /\
    Forall (fun x => 0 <= x < 2 ^ 32) kp.2) (iteration_order table).
Proof.
  intros [Hsize Hvalues] Hfit. rewrite length_iteration_order. split; [done|].
  rewrite (iteration_order_entries table).
  apply Forall_forall. intros [k v] Hin. apply elem_of_map_to_list in Hin.
  destruct (Hfit k v Hin) as [Hk Hv]. split_and!; try done.
  exact (Hvalues k v Hin).
Qed.

Lemma write_table_unsigned_int table :
  unsigned_int_table table -> fits_int32 table ->
  write_table (ParamType0 := unsigned_int byte_order) table
  = Some (table_bytes byte_order (iteration_order table)).
Proof.
  intros Htype Hfit. destruct (persistable_entries table Htype Hfit) as [Hsize Hall].
  unfold write_table. rewrite write_entries_unsigned_int by done.
  unfold table_bytes. rewrite length_iteration_order in *.
  unfold Int.to_int64. by rewrite IntFacts.wrap_id by (unfold Int.in_range; lia).
Qed.

(** The entries of a table with a single key are met in the only order
    there is. *)
Lemma iteration_order_singleton (k : string) (v : list Z) :
  iteration_order {[k := v]} = [(k, v)].
Proof.
  apply Permutation_singleton_r.
  by rewrite (iteration_order_entries {[k := v]}), map_to_list_singleton.
Qed.

Lemma log_entries_files `{!ParamType Z} (kps : list (string * list Z)) : forall p,
  files (log_entries kps p) = files p.
Proof.
  induction kps as [|kp kps IH]; intros p; [done|].
  cbn [log_entries]. rewrite IH. apply VLOG_surroundings.
Qed.

(** A table with the single entry [(k, v)] whose payload byte length does
    not fit [int32_t]: the length field written is what the conversion leaves
    of [2 ^ 31], a negative number, in front of the [2 ^ 31] payload bytes; the
    file does not follow the layout, and the loader reports failure and reads
    nothing back. *)
Lemma long_vector_not_read_back t p path k v :
  param_table_ t = {[k := v]} ->
  Z.of_nat (String.length k) < 2 ^ 31 -> Z.of_nat (length v) = 2 ^ 29 ->
  path_ t = Some path -> writable p path = true ->
  exists p',
    WriteRunParameters (ParamType0 := unsigned_int byte_order) t p = Some p' /\
    files p' !! path =
      Some (Raw.encode byte_order 8 1
            ++ Raw.encode byte_order 4 (Z.of_nat (String.length k))
            ++ list_byte_of_string k
            ++ Raw.encode byte_order 4 (- 2 ^ 31)
            ++ vector_storage (ParamType0 := unsigned_int byte_order) v) /\
    Loader.GetTuningParams byte_order (Some path) (files p') ∅ = (false, ∅).
Proof.
  intros Htable Hk Hv Hpath Hw. unfold WriteRunParameters. rewrite Hpath.
  destruct (VLOG_surroundings 3 ("Write tuning result to " ++ path) p)
    as (_ & _ & Hwr & _).
  rewrite Hwr, Hw. unfold write_table. rewrite Htable, iteration_order_singleton.
  cbn [write_entries].
  rewrite (write_entry_word (ParamType0 := unsigned_int byte_order));
    [|done|intros x; apply RawFacts.length_encode].
  cbn [fst snd]. rewrite app_nil_r, map_size_singleton.
  unfold Int.to_int32 at 1 2. rewrite !IntFacts.wrap_id by (unfold Int.in_range; lia).
  rewrite take_ge by (rewrite LoaderFacts.length_list_byte_of_string; lia).
  rewrite Hv. change (Int.to_int32 (2 ^ 29 * 4)) with (- 2 ^ 31).
  change (Int.to_int64 (Z.of_nat 1)) with 1. unfold sizeof_int64.
  eexists. split; [reflexivity|].
  cbn [with_file files]. rewrite lookup_insert_eq. split; [reflexivity|].
  unfold Loader.GetTuningParams. rewrite lookup_insert_eq.
  unfold Loader.read_file, sizeof_int64.
  rewrite LoaderFacts.read_int_encode by LoaderFacts.fits. cbn [mbind option_bind].
  rewrite decide_True by lia. change (Z.to_nat 1) with 1%nat.
  cbn [Loader.read_entries]. unfold Loader.read_entry, sizeof_int32.
  rewrite LoaderFacts.read_int_encode by LoaderFacts.fits. cbn [mbind option_bind].
  rewrite <- LoaderFacts.length_list_byte_of_string, LoaderFacts.read_bytes_app.
  cbn [mbind option_bind].
  rewrite LoaderFacts.read_int_encode by LoaderFacts.fits. cbn [mbind option_bind].
  unfold Loader.read_bytes. by rewrite decide_False by lia.
Qed.

(** The same for a key whose length does not fit [int32_t]: the key length
    written is negative and no key byte follows it. *)
Lemma long_key_not_read_back t p path k v :
  param_table_ t = {[k := v]} ->
  Z.of_nat (String.length k) = 2 ^ 31 ->
  path_ t = Some path -> writable p path = true ->
  exists p',
    WriteRunParameters (ParamType0 := unsigned_int byte_order) t p = Some p' /\
    files p' !! path =
      Some (Raw.encode byte_order 8 1
            ++ Raw.encode byte_order 4 (- 2 ^ 31)
            ++ Raw.encode byte_order 4 (Int.to_int32 (Z.of_nat (length v) * 4))
            ++ vector_storage (ParamType0 := unsigned_int byte_order) v) /\
    Loader.GetTuningParams byte_order (Some path) (files p') ∅ = (false, ∅).
Proof.
  intros Htable Hk Hpath Hw. unfold WriteRunParameters. rewrite Hpath.
  destruct (VLOG_surroundings 3 ("Write tuning result to " ++ path) p)
    as (_ & _ & Hwr & _).
  rewrite Hwr, Hw. unfold write_table. rewrite Htable, iteration_order_singleton.
  cbn [write_entries].
  rewrite (write_entry_word (ParamType0 := unsigned_int byte_order));
    [|done|intros x; apply RawFacts.length_encode].
  cbn [fst snd]. rewrite app_nil_r, map_size_singleton.
  rewrite Hk. change (Int.to_int32 (2 ^ 31)) with (- 2 ^ 31).
  change (Z.to_nat (- 2 ^ 31)) with 0%nat. rewrite take_0. cbn [app].
  change (Int.to_int64 (Z.of_nat 1)) with 1. unfold sizeof_int64.
  eexists. split; [reflexivity|].
  cbn [with_file files]. rewrite lookup_insert_eq. split; [reflexivity|].
  unfold Loader.GetTuningParams. rewrite lookup_insert_eq.
  unfold Loader.read_file, sizeof_int64.
  rewrite LoaderFacts.read_int_encode by LoaderFacts.fits. cbn [mbind option_bind].
  rewrite decide_True by lia. change (Z.to_nat 1) with 1%nat.
  cbn [Loader.read_entries]. unfold Loader.read_entry, sizeof_int32.
  rewrite LoaderFacts.read_int_encode by LoaderFacts.fits. cbn [mbind option_bind].
  unfold Loader.read_bytes. by rewrite decide_False by lia.
Qed.


(** C5: writing a table of [unsigned int] vectors whose key lengths and
    payload byte lengths fit [int32_t], in whatever order the container hands
    out its entries, and reading the file back into an empty table gives the
    same table: the same keys with the same vectors, each entry with the
    payload byte length that was written. *)
Theorem C5_round_trip t p path :
  unsigned_int_table (param_table_ t) -> fits_int32 (param_table_ t) ->
  path_ t = Some path -> writable p path = true ->
  exists p',
    WriteRunParameters (ParamType0 := unsigned_int byte_order) t p = Some p' /\
    files p' !! path
      = Some (table_bytes byte_order (iteration_order (param_table_ t))) /\
    Loader.read_file byte_order
        (table_bytes byte_order (iteration_order (param_table_ t)))
      = Some (entry_of <$> iteration_order (param_table_ t)) /\
    iteration_order (param_table_ t) ≡ₚ map_to_list (param_table_ t) /\
    Loader.GetTuningParams byte_order (Some path) (files p') ∅
      = (true, param_table_ t).
Proof.
  intros Htype Hfit Hpath Hw. unfold WriteRunParameters. rewrite Hpath.
  destruct (VLOG_surroundings 3 ("Write tuning result to " ++ path) p)
    as (_ & _ & Hwr & _).
  rewrite Hwr, Hw, write_table_unsigned_int by done.
  eexists. split; [reflexivity|].
  cbn [with_file files]. rewrite lookup_insert_eq.
  destruct (persistable_entries _ Htype Hfit) as [Hsize Hall].
  pose proof (LoaderFacts.read_file_table_bytes byte_order _ Hsize Hall) as Hread.
  split_and!; try done; [apply iteration_order_entries|].
  unfold Loader.GetTuningParams. rewrite lookup_insert_eq, Hread.
  by rewrite (LoaderFacts.fill_entries _ _ (iteration_order_entries _)).
Qed.

(** C8: saving without a configured path does nothing; loading through a
    loader that reports failure (as for a missing file) leaves the table
    empty and logs one warning; saving to a file that cannot be opened logs
    one warning and writes nothing. Each of the three returns normally. *)
Theorem C8_load_save_degrade `{!ParamType Z} t p :
  (forall path files table,
     GetTuningParams path files table
     = Loader.GetTuningParams byte_order path files table) ->
  (path_ t = None -> WriteRunParameters t p = Some p) /\
  ((GetTuningParams (environ p "MACE_RUN_PARAMETER_PATH") (files p) ∅).1 = false ->
   Tuner_new p =
     ({| path_ := environ p "MACE_RUN_PARAMETER_PATH"; param_table_ := ∅ |},
      LOG_WARNING "Get run parameter failed." p)) /\
  (forall path,
     environ p "MACE_RUN_PARAMETER_PATH" = Some path -> files p !! path = None ->
     (GetTuningParams (environ p "MACE_RUN_PARAMETER_PATH") (files p) ∅).1 = false) /\
  (forall path,
     path_ t = Some path -> writable p path = false ->
     exists p',
       WriteRunParameters t p = Some p' /\
       files p' = files p /\ world p' = world p /\
       invocations p' = invocations p /\
       warnings (log p') = warnings (log p) ++ ["Write run parameter file failed."]).
Proof.
  intros Hloader. split_and!.
  - intros Hpath. unfold WriteRunParameters. by rewrite Hpath.
  - unfold Tuner_new, ReadRunParamters. cbn [path_ param_table_].
    rewrite Hloader. unfold Loader.GetTuningParams.
    destruct (environ p "MACE_RUN_PARAMETER_PATH") as [path|]; [|done].
    destruct (files p !! path) as [bs|]; [|done].
    by destruct (Loader.read_file byte_order bs).
  - intros path Hpath Hfile. rewrite Hloader, Hpath. cbn. by rewrite Hfile.
  - intros path Hpath Hw. unfold WriteRunParameters. rewrite Hpath.
    destruct (VLOG_surroundings 3 ("Write tuning result to " ++ path) p)
      as (_ & Hf & Hwr & Hwo & Hi & Hl).
    rewrite Hwr, Hw. eexists. split; [reflexivity|].
    unfold LOG_WARNING, with_log. cbn [files world invocations log].
    rewrite warnings_app, Hl. by split_and!.
Qed.
End PersistenceFacts.

(** ** Concrete runs *)

(** The order of iteration is open: every enumeration of the entries of a
    table is the order in which the container of some host meets them. *)
Lemma every_enumeration_is_met order disabled (table : gmap string (list Z))
    (entries : list (string * list Z)) :
  entries ≡ₚ map_to_list table ->
  exists visit (visit_entries : forall m, visit m ≡ₚ map_to_list m),
    iteration_order
      (Collaborators := host_visiting order disabled visit visit_entries) table
    = entries.
Proof.
  intros Hperm.
  exists (fun m => if decide (m = table) then entries else map_to_list m).
  assert (forall m : gmap string (list Z),
            (if decide (m = table) then entries else map_to_list m)
            ≡ₚ map_to_list m) as Hvisit
    by (intros m; destruct (decide (m = table)) as [->|]; done).
  exists Hvisit. cbn. by rewrite decide_True.
Qed.

(** C1, counterexample. First, in a build that defines
    [MACE_DISABLE_NO_TUNING_WARNING] a cache miss runs the kernel on the
    default vector and logs no warning. Second, with the tuning flag set and
    a generator that yields no candidate there is no winning candidate: the
    kernel is not called, no result is returned (the [RetType res] of [Tune]
    is never assigned) and what is stored is the default vector. *)
Lemma C1_no_warning_no_winner :
  (let p := Sample.boot None None in
   let out :=
     TuneOrRun (Collaborators0 := host LittleEndian true) "missingKey" [7] None
       (Sample.reporting (fun _ => 5)) tt (Sample.tuner None ∅) p in
   IsTuning p = false /\
   param_table_ (Sample.tuner None ∅) !! "missingKey"%string = None /\
   inv_params <$> invocations out.2 = [[7]] /\
   warnings (log out.2) = []) /\
  (let p := Sample.boot (Some "1"%string) None in
   let gen : generator Z := fun _ => [] in
   let func := Sample.reporting (fun _ => 5) in
   let out :=
     TuneOrRun (Collaborators0 := host LittleEndian false) "k" [7] (Some gen)
       func tt (Sample.tuner None ∅) p in
   IsTuning p = true /\
   probes (Collaborators0 := host LittleEndian false) func tt (gen tt) [] p = [] /\
   invocations out.2 = [] /\
   out.1.1 = None /\
   param_table_ out.1.2 !! "k"%string = Some [7]).
Proof. repeat split. Qed.

(** C6, counterexample: on an empty candidate set the best time stays at the
    largest finite [double], which is not +infinity. *)
Lemma C6_best_time_is_not_infinity :
  opt_time
    (Tune_locals (Collaborators0 := host LittleEndian false) (fun _ => [])
       (Sample.reporting (fun _ => 5)) tt [7] (Sample.boot (Some "1"%string) None)).1
  <> Double.infinity.
Proof. discriminate. Qed.

(** C2 on the candidates [[2]; [3]] of equal time. *)
Lemma C2_witness :
  let gen : generator Z := fun _ => [[2]; [3]] in
  let func := Sample.reporting (fun _ => 10) in
  let p := Sample.boot (Some "1"%string) None in
  let os := probes (Collaborators0 := host LittleEndian false) func tt (gen tt) [] p in
  gen tt <> [] /\
  (Tune_locals (Collaborators0 := host LittleEndian false) gen func tt [7] p).1 =
    foldl select
      {| res := None; opt_time := Double.max; opt_params := [7]; tuning_result := [] |}
      os /\
  exists w o,
    wins os w o /\ gen tt !! w = Some (o_param o) /\
    (Tune (Collaborators0 := host LittleEndian false) gen func tt [7] p).1
    = (o_res o, o_buffer o).
Proof.
  intros gen func p os. split; [done|].
  apply (C2_selection_policy (Collaborators0 := host LittleEndian false)
           gen func tt [7] p).
  done.
Defined.

(** C6 on a generator without candidates. *)
Lemma C6_witness :
  let gen : generator Z := fun _ => [] in
  let func := Sample.reporting (fun _ => 10) in
  let p := Sample.boot (Some "1"%string) None in
  gen tt = [] /\
  Tune_locals (Collaborators0 := host LittleEndian false) gen func tt [7] p =
    ({| res := None; opt_time := Double.max; opt_params := [7]; tuning_result := [] |}, p)
  /\ Double.max <> Double.infinity
  /\ Tune (Collaborators0 := host LittleEndian false) gen func tt [7] p = (None, [7], p).
Proof.
  intros gen func p. split; [done|].
  apply (C6_empty_candidates (Collaborators0 := host LittleEndian false)
           gen func tt [7] p).
  done.
Defined.

(** C7 on three calls for the same cached key with the tuning flag off. *)
Lemma C7_witness :
  let t := Sample.tuner None Sample.table in
  let p := Sample.boot None None in
  let r : request Z Z Z unit :=
    {| req_key := "convK3"; req_default := [1; 1; 1];
       req_generator := Some (fun _ => [[2; 2; 2]]);
       req_func := Sample.reporting (fun _ => 10); req_timer := tt |} in
  let reqs := [r; r; r] in
  (IsTuning p = false \/ Forall (fun r => req_generator r = None) reqs) /\
  (serve (Collaborators0 := host LittleEndian false) reqs t p).1.2 = t /\
  exists new,
    invocations (serve (Collaborators0 := host LittleEndian false) reqs t p).2
    = invocations p ++ new /\
    Forall2 (fun r i =>
      inv_params i =
        default (req_default r) (param_table_ t !! req_key r) /\
      inv_timer i = None /\ inv_buffer i = None) reqs new.
Proof.
  intros t p r reqs. split; [by left|].
  apply (C7_replay_leaves_table (Collaborators0 := host LittleEndian false) reqs t p).
  by left.
Defined.

(** C9 on a key that is cached already. *)
Lemma C9_witness :
  let t := Sample.tuner None Sample.table in
  let p := Sample.boot (Some "1"%string) None in
  let gen : generator Z := fun _ => [] in
  let out :=
    TuneOrRun (Collaborators0 := host LittleEndian false) "convK3" [1; 1; 1]
      (Some gen) (Sample.reporting (fun _ => 10)) tt t p in
  IsTuning p = true /\ gen tt = [] /\
  param_table_ out.1.2 = <["convK3"%string := [1; 1; 1]]> (param_table_ t) /\
  param_table_ out.1.2 !! "convK3"%string = Some [1; 1; 1] /\
  out.1.1 = None /\
  invocations out.2 = invocations p.
Proof.
  intros t p gen out. split; [done|]. split; [done|].
  apply (C9_empty_generator_stores_default (Collaborators0 := host LittleEndian false)
           "convK3"%string [1; 1; 1] gen (Sample.reporting (fun _ => 10)) tt t p);
    done.
Defined.

(** C10 on the candidates [[1]; [5]] and a kernel that leaves the buffer
    alone: the stored vector is empty. *)
Lemma C10_witness :
  let t := Sample.tuner None ∅ in
  let p := Sample.boot (Some "1"%string) None in
  let gen : generator Z := fun _ => [[1]; [5]] in
  let func := Sample.silent (fun v => match v with [5] => 1 | _ => 5 end) in
  let out :=
    TuneOrRun (Collaborators0 := host LittleEndian false) "k" [7] (Some gen) func tt t p in
  let os := probes (Collaborators0 := host LittleEndian false) func tt (gen tt) [] p in
  IsTuning p = true /\ gen tt <> [] /\
  (exists w o i,
     wins os w o /\ gen tt !! w = Some (o_param o) /\
     last (o_calls o) = Some i /\ out.1.1 = o_res o /\
     param_table_ out.1.2 !! "k"%string = Some (kr_tuning_result (inv_result i))) /\
  param_table_ out.1.2 !! "k"%string = Some [].
Proof.
  intros t p gen func out os. split; [done|]. split; [done|].
  destruct (C10_stored_vector_is_buffer (Collaborators0 := host LittleEndian false)
              "k"%string [7] gen func tt t p) as [Hbuffer Hsilent]; [done | done |].
  split; [exact Hbuffer|]. apply Hsilent. by intros params timer buffer w.
Defined.

(** The sample table is a table of [unsigned int] vectors and fits the
    layout. *)
Lemma unsigned_int_table_sample : unsigned_int_table Sample.table.
Proof.
  split; [by vm_compute|]. apply map_Forall_to_list.
  change (map_to_list Sample.table)
    with [("gemmTile"%string, [4; 16]); ("convK3"%string, [8; 8; 1])].
  repeat constructor; cbn; lia.
Defined.

Lemma fits_int32_sample : fits_int32 Sample.table.
Proof.
  apply map_Forall_to_list.
  change (map_to_list Sample.table)
    with [("gemmTile"%string, [4; 16]); ("convK3"%string, [8; 8; 1])].
  repeat constructor; cbn; lia.
Defined.

(** C5, counterexample: a table whose only vector has [2 ^ 29] values, and
    a table whose only key has [2 ^ 31] characters. Either is written; the
    payload length, respectively the key length, in the file is [- 2 ^ 31],
    what the conversion to [int32_t] leaves of [2 ^ 31], and the loader reads
    nothing back from the file. *)
Lemma C5_oversized_entries_not_read_back :
  let save table :=
    WriteRunParameters (ParamType0 := unsigned_int LittleEndian)
      (Collaborators0 := host LittleEndian false)
      (Sample.tuner (Some "f"%string) table)
      (Sample.boot None (Some "f"%string) : process Z Z Z unit) in
  let load (p : process Z Z Z unit) :=
    Loader.GetTuningParams LittleEndian (Some "f"%string) (files p) ∅ in
  (Z.of_nat (length Sample.long_vector) * 4 = 2 ^ 31 /\
   exists p', save {["k"%string := Sample.long_vector]} = Some p' /\
     files p' !! "f"%string =
       Some (Raw.encode LittleEndian 8 1
             ++ Raw.encode LittleEndian 4 1 ++ list_byte_of_string "k"
             ++ Raw.encode LittleEndian 4 (- 2 ^ 31)
             ++ vector_storage (ParamType0 := unsigned_int LittleEndian)
                  Sample.long_vector) /\
     load p' = (false, ∅)) /\
  (Z.of_nat (String.length Sample.long_key) = 2 ^ 31 /\
   exists p', save {[Sample.long_key := [1]]} = Some p' /\
     files p' !! "f"%string =
       Some (Raw.encode LittleEndian 8 1
             ++ Raw.encode LittleEndian 4 (- 2 ^ 31)
             ++ Raw.encode LittleEndian 4 4
             ++ vector_storage (ParamType0 := unsigned_int LittleEndian) [1]) /\
     load p' = (false, ∅)).
Proof.
  intros save load.
  assert (Z.of_nat (length Sample.long_vector) = 2 ^ 29) as Hv.
  { unfold Sample.long_vector. rewrite length_replicate, Z2Nat.id; lia. }
  assert (Z.of_nat (String.length Sample.long_key) = 2 ^ 31) as Hk.
  { unfold Sample.long_key.
    rewrite <- LoaderFacts.length_list_byte_of_string, list_byte_of_string_of_list_byte.
    rewrite length_replicate, Z2Nat.id; lia. }
  split; (split; [lia|]).
  - apply (long_vector_not_read_back (Collaborators0 := host LittleEndian false)
             (Sample.tuner (Some "f"%string) {["k"%string := Sample.long_vector]})
             (Sample.boot None (Some "f"%string)) "f"%string "k"%string
             Sample.long_vector eq_refl).
    + by vm_compute.
    + exact Hv.
    + reflexivity.
    + reflexivity.
  - apply (long_key_not_read_back (Collaborators0 := host LittleEndian false)
             (Sample.tuner (Some "f"%string) {[Sample.long_key := [1]]})
             (Sample.boot None (Some "f"%string)) "f"%string Sample.long_key
             [1] eq_refl).
    + exact Hk.
    + reflexivity.
    + reflexivity.
Qed.

(** C5 on the sample table, saved by a host whose container hands out the
    entries in the opposite order. *)
Lemma C5_witness :
  let t := Sample.tuner (Some "mace_run.config"%string) Sample.table in
  let p : process Z Z Z unit := Sample.boot None (Some "mace_run.config"%string) in
  let entries := reverse (map_to_list (param_table_ t)) in
  unsigned_int_table (param_table_ t) /\ fits_int32 (param_table_ t) /\
  path_ t = Some "mace_run.config"%string /\
  writable p "mace_run.config" = true /\
  exists p',
    WriteRunParameters (ParamType0 := unsigned_int LittleEndian)
      (Collaborators0 := host_backwards LittleEndian false) t p = Some p' /\
    files p' !! "mace_run.config"%string
      = Some (table_bytes LittleEndian entries) /\
    Loader.read_file LittleEndian (table_bytes LittleEndian entries)
      = Some (entry_of <$> entries) /\
    entries ≡ₚ map_to_list (param_table_ t) /\
    Loader.GetTuningParams LittleEndian (Some "mace_run.config"%string) (files p') ∅
      = (true, param_table_ t).
Proof.
  intros t p entries. split; [exact unsigned_int_table_sample|].
  split; [exact fits_int32_sample|]. split; [done|]. split; [done|].
  apply (C5_round_trip (Collaborators0 := host_backwards LittleEndian false) t p
           "mace_run.config"%string unsigned_int_table_sample fits_int32_sample);
    done.
Defined.

(** C8 on a configured path that can be neither read nor written. *)
Lemma C8_witness :
  let t := Sample.tuner (Some "/nowhere/mace_run.config"%string) Sample.table in
  let p : process Z Z Z unit :=
    {| environ := Sample.getenv None (Some "/nowhere/mace_run.config"%string);
       files := ∅; writable := fun _ => false; world := 0;
       invocations := []; log := [] |} in
  Tuner_new (Collaborators0 := host LittleEndian false) p =
    ({| path_ := Some "/nowhere/mace_run.config"%string; param_table_ := ∅ |},
     LOG_WARNING "Get run parameter failed." p) /\
  exists p',
    WriteRunParameters (ParamType0 := unsigned_int LittleEndian)
      (Collaborators0 := host LittleEndian false) t p = Some p' /\
    files p' = files p /\ world p' = world p /\
    invocations p' = invocations p /\
    warnings (log p') = warnings (log p) ++ ["Write run parameter file failed."].
Proof.
  intros t p.
  destruct (C8_load_save_degrade (Collaborators0 := host LittleEndian false)
              (ParamType0 := unsigned_int LittleEndian) t p (fun _ _ _ => eq_refl))
    as (_ & Hload & Hmissing & Hsave).
  split.
  - apply Hload. by apply (Hmissing "/nowhere/mace_run.config"%string).
  - by apply (Hsave "/nowhere/mace_run.config"%string).
Defined.

(** *** The runs that the design names as tests *)

(** The mean of ten readings that sum to 25 microseconds is 2.5, and the
    mean of two that sum to -7 is -3.5. *)
Example mean_sample :
  Qred (DoubleValue.value (Double.mean 25 10)) = (5 # 2)%Q /\
  Qred (DoubleValue.value (Double.mean (-7) 2)) = (-7 # 2)%Q.
Proof. split; by vm_compute. Qed.

Example selection_sample :
  (Tune (Collaborators0 := host LittleEndian false) (fun _ => [[1]; [2]; [3]])
     (Sample.reporting
        (fun v => match v with [1] => 50 | [2] => 10 | [3] => 90 | _ => 0 end))
     tt [7] (Sample.boot (Some "1"%string) None)).1
  = (Some 2, [2]).
Proof. by vm_compute. Qed.

Example tie_break_sample :
  (Tune (Collaborators0 := host LittleEndian false) (fun _ => [[2]; [3]])
     (Sample.reporting (fun _ => 10)) tt [7]
     (Sample.boot (Some "1"%string) None)).1
  = (Some 2, [2]).
Proof. by vm_compute. Qed.

Example fallback_sample :
  let out :=
    TuneOrRun (Collaborators0 := host LittleEndian false) "missingKey" [7] None
      (Sample.reporting (fun _ => 5)) tt (Sample.tuner None ∅)
      (Sample.boot None None) in
  inv_params <$> invocations out.2 = [[7]] /\
  warnings (log out.2) = ["Fallback to default parameter: missingKey"%string].
Proof. by vm_compute. Qed.

Example write_through_sample :
  let path := "mace_run.config"%string in
  let out :=
    TuneOrRun (Collaborators0 := host LittleEndian false) "k" [7]
      (Some (fun _ => [[1]; [5]]))
      (Sample.reporting (fun v => match v with [5] => 1 | _ => 5 end)) tt
      (Sample.tuner (Some path) ∅) (Sample.boot (Some "1"%string) (Some path)) in
  param_table_ out.1.2 !! "k"%string = Some [5] /\
  match WriteRunParameters (ParamType0 := unsigned_int LittleEndian)
          (Collaborators0 := host LittleEndian false) out.1.2 out.2 with
  | Some p' =>
      param_table_ (Tuner_new (Collaborators0 := host LittleEndian false) p').1
        !! "k"%string = Some [5]
  | None => False
  end.
Proof. by vm_compute. Qed.

(** ** More on the tuner: edges, call chains, frames *)

Module MoreDoubleFacts.
Import Double.

Lemma mean_2_small total : - 2 ^ 63 <= total < 2 ^ 63 -> small 66 119 (mean total 2).
Proof.
  intros Ht. unfold mean.
  change (of_int 2) with (S754_finite false 4503599627370496 (-51)).
  eapply DoubleFacts.small_weaken;
    [apply DoubleFacts.div_small;
       [apply DoubleFacts.mul_one_small; [by apply DoubleFacts.of_int_small|]|]|..];
    lia.
Qed.

End MoreDoubleFacts.

Section MoreTunerFacts.
Context {param_type RetType World Timer : Type}.
Context `{!Collaborators param_type World Timer}.
Implicit Types (func : kernel param_type RetType World Timer).
Implicit Types (p : process param_type RetType World Timer).
Implicit Types (timer : Timer) (t : Tuner param_type).
Implicit Types (gen : generator param_type) (g : option (generator param_type)).
Implicit Types (k : string) (d : list param_type).
Implicit Types (i : invocation param_type RetType World Timer).
Implicit Types (l new : list (invocation param_type RetType World Timer)).
Implicit Types (reqs : list (request param_type RetType World Timer)).

(** X1: tuning mode is on exactly when [MACE_TUNING] is set to the one
    character string ["1"]; unset, empty, ["0"], ["11"] or ["1 "] all mean
    replay. *)
Theorem IsTuning_iff p :
  IsTuning p = true <-> environ p "MACE_TUNING" = Some "1"%string.
Proof.
  unfold IsTuning. destruct (environ p "MACE_TUNING") as [s|]; [|by split].
  destruct s as [|c [|c' s']]; cbn [String.length Nat.eqb andb String.get].
  - by split.
  - rewrite bool_decide_eq_true. split; [by intros [= ->] | by intros [= ->]].
  - by split.
Qed.


(** X3: for any repetition count [Run] calls the kernel exactly that many
    times (none for a negative count), every time with the same parameters,
    the timer and a buffer; it returns the result of the last call and changes
    neither environment, files nor log; the time it reports is what
    [total * 1.0 / num_runs] evaluates to on the [int64_t] sum [total] of all
    timer readings, and for a positive [int] count that is the number
    [total / num_runs] up to a relative error of [2 ^ -48]. *)
Theorem Run_calls func params timer num_runs buf p :
  exists new,
    invocations (Run func params timer num_runs buf p).2 = invocations p ++ new /\
    length new = Z.to_nat num_runs /\
    Forall (run_call params timer) new /\
    (Run func params timer num_runs buf p).1.1.1
      = (fun i => kr_res (inv_result i)) <$> last new /\
    (Run func params timer num_runs buf p).1.1.2
      = Double.mean (Int.to_int64 (sum_readings timer new)) num_runs /\
    (0 < num_runs < 2 ^ 31 ->
     DoubleValue.quotient (Run func params timer num_runs buf p).1.1.2
       (Int.to_int64 (sum_readings timer new)) num_runs) /\
    same_surroundings p (Run func params timer num_runs buf p).2.
Proof.
  destruct (Run func params timer num_runs buf p) as [[[r tm] b] q] eqn:E.
  apply Run_spec in E as (new & ? & ? & ? & Ht & ? & ? & ?).
  exists new. split_and!; try done.
  intros Hn. cbn [fst snd]. rewrite Ht.
  apply ValueFacts.mean_quotient; [apply IntFacts.to_int64_range | lia].
Qed.

Lemma threaded_app func timer l1 : forall buf w l2,
  threaded func timer buf w l1 ->
  threaded func timer (end_buffer buf l1) (end_world w l1) l2 ->
  threaded func timer buf w (l1 ++ l2).
Proof.
  induction l1 as [|i l1 IH]; intros buf w l2; [done|].
  cbn [threaded app]. intros (Ht & Hb & Hr & Hrest) Hl2. split_and!; try done.
  apply IH; [done|]. unfold end_buffer, end_world in *.
  rewrite last_cons in Hl2. by destruct (last l1).
Qed.

Lemma end_buffer_app buf l1 l2 :
  end_buffer buf (l1 ++ l2) = end_buffer (end_buffer buf l1) l2.
Proof.
  unfold end_buffer. rewrite last_app. by destruct (last l2).
Qed.

Lemma end_world_app (w : World) l1 l2 :
  end_world w (l1 ++ l2) = end_world (end_world w l1) l2.
Proof.
  unfold end_world. rewrite last_app. by destruct (last l2).
Qed.

Lemma Run_loop_threaded func params timer n : forall r0 total buf p r' total' buf' p',
  Run_loop func params timer n r0 total buf p = (r', total', buf', p') ->
  exists new,
    invocations p' = invocations p ++ new /\ length new = n /\
    threaded func timer buf (world p) new /\
    Forall (fun i => inv_params i = params) new /\
    buf' = end_buffer buf new /\ world p' = end_world (world p) new.
Proof.
  induction n as [|n IH]; intros r0 total buf p r' total' buf' p'.
  - intros [= <- <- <- <-]. exists []. rewrite app_nil_r. by split_and!.
  - cbn [Run_loop]. unfold call. intros Hrun.
    apply IH in Hrun as (new & Hi & Hl & Ht & Hp & Hb & Hw).
    cbn [with_world invocations world] in Hi, Ht, Hw.
    eexists (_ :: new). split_and!.
    + rewrite Hi, <- app_assoc. reflexivity.
    + cbn [length]. by rewrite Hl.
    + cbn [threaded inv_timer inv_buffer inv_result inv_params]. by split_and!.
    + by constructor.
    + rewrite Hb. unfold end_buffer. rewrite last_cons. by destruct (last new).
    + rewrite Hw. unfold end_world. rewrite last_cons. by destruct (last new).
Qed.

Lemma Run_threaded func params timer num_runs buf p r' time' buf' p' :
  Run func params timer num_runs buf p = (r', time', buf', p') ->
  exists new,
    invocations p' = invocations p ++ new /\ length new = Z.to_nat num_runs /\
    threaded func timer buf (world p) new /\
    Forall (fun i => inv_params i = params) new /\
    buf' = end_buffer buf new /\ world p' = end_world (world p) new.
Proof.
  unfold Run.
  destruct (Run_loop func params timer (Z.to_nat num_runs) None 0 buf p)
    as [[[r tt] b] q] eqn:E.
  intros [= <- <- <- <-]. by apply Run_loop_threaded in E.
Qed.

(** X4: within [Run] every call receives the output buffer as the call before
    it left it (the first one as [Run] was given it) and runs in the world as
    the call before it left it; [Run] hands back the buffer as the last call
    left it. *)
Theorem Run_threads_buffer func params timer num_runs buf p :
  exists new,
    invocations (Run func params timer num_runs buf p).2 = invocations p ++ new /\
    threaded func timer buf (world p) new /\
    (Run func params timer num_runs buf p).1.2 = end_buffer buf new /\
    world (Run func params timer num_runs buf p).2 = end_world (world p) new.
Proof.
  destruct (Run func params timer num_runs buf p) as [[[r tm] b] q] eqn:E.
  apply Run_threaded in E as (new & ? & ? & ? & ? & ? & ?).
  exists new. by split_and!.
Qed.

(** X5: the time [Run] reports for 2 or for 10 repetitions is never a NaN
    and always below [std::numeric_limits<double>::max()], whatever the timer
    reads: the comparison in [Tune] always succeeds on the first candidate. *)
Theorem Run_time_below_max func params timer num_runs buf p :
  num_runs = 2 \/ num_runs = 10 ->
  Double.is_nan (Run func params timer num_runs buf p).1.1.2 = false /\
  Double.ltb (Run func params timer num_runs buf p).1.1.2 Double.max = true.
Proof.
  intros Hn.
  destruct (Run func params timer num_runs buf p) as [[[r tm] b] q] eqn:E.
  apply Run_spec in E as (new & _ & _ & _ & -> & _). cbn [fst snd].
  assert (Double.small 66 119
            (Double.mean (Int.to_int64 (sum_readings timer new)) num_runs)) as Hs.
  { destruct Hn as [-> | ->].
    - apply MoreDoubleFacts.mean_2_small, IntFacts.to_int64_range.
    - eapply DoubleFacts.small_weaken;
        [apply DoubleFacts.mean_10_small, IntFacts.to_int64_range | lia | lia]. }
  split; [by eapply DoubleFacts.small_not_nan|].
  eapply DoubleFacts.small_lt_max; [exact Hs | lia].
Qed.

Lemma probe_candidate_threaded func timer param buf p :
  exists new,
    invocations (probe_candidate func timer param buf p).2 = invocations p ++ new /\
    length new = 12%nat /\
    threaded func timer buf (world p) new /\
    Forall (fun i => inv_params i = param) new /\
    o_buffer (probe_candidate func timer param buf p).1 = end_buffer buf new /\
    world (probe_candidate func timer param buf p).2 = end_world (world p) new.
Proof.
  unfold probe_candidate.
  destruct (Run func param timer 2 buf p) as [[[r1 t1] b1] p1] eqn:E1.
  destruct (Run func param timer 10 b1 p1) as [[[r2 t2] b2] p2] eqn:E2.
  apply Run_threaded in E1 as (l1 & Hi1 & Hl1 & Ht1 & Hp1 & -> & Hw1).
  apply Run_threaded in E2 as (l2 & Hi2 & Hl2 & Ht2 & Hp2 & -> & Hw2).
  exists (l1 ++ l2). cbn [fst snd o_buffer]. split_and!.
  - by rewrite Hi2, Hi1, <- app_assoc.
  - rewrite length_app, Hl1, Hl2. reflexivity.
  - apply threaded_app; [done|]. by rewrite <- Hw1.
  - by apply Forall_app.
  - by rewrite end_buffer_app.
  - by rewrite Hw2, Hw1, end_world_app.
Qed.

Lemma Tune_loop_threaded func timer params : forall st p,
  exists new,
    invocations (Tune_loop func timer params st p).2 = invocations p ++ new /\
    length new = (12 * length params)%nat /\
    threaded func timer (tuning_result st) (world p) new /\
    Forall (fun i => inv_params i ∈ params) new /\
    tuning_result (Tune_loop func timer params st p).1
      = end_buffer (tuning_result st) new /\
    world (Tune_loop func timer params st p).2 = end_world (world p) new.
Proof.
  induction params as [|param rest IH]; intros st p.
  - exists []. cbn [Tune_loop fst snd]. rewrite app_nil_r. by split_and!.
  - rewrite Tune_loop_cons.
    destruct (probe_candidate_threaded func timer param (tuning_result st) p)
      as (l1 & Hi1 & Hl1 & Ht1 & Hp1 & Hb1 & Hw1).
    destruct (probe_candidate func timer param (tuning_result st) p) as [o q].
    cbn [fst snd] in *.
    destruct (IH (select st o) q) as (l2 & Hi2 & Hl2 & Ht2 & Hp2 & Hb2 & Hw2).
    rewrite tuning_result_select in Ht2, Hb2.
    exists (l1 ++ l2). split_and!.
    + by rewrite Hi2, Hi1, <- app_assoc.
    + rewrite length_app, Hl1, Hl2. cbn [length]. lia.
    + apply threaded_app; [done|]. by rewrite <- Hb1, <- Hw1.
    + apply Forall_app. split.
      * eapply Forall_impl; [exact Hp1|]. intros i ->. apply list_elem_of_here.
      * eapply Forall_impl; [exact Hp2|]. intros i Hin. by apply list_elem_of_further.
    + by rewrite Hb2, Hb1, end_buffer_app.
    + by rewrite Hw2, Hw1, end_world_app.
Qed.

Lemma Tune_calls gen func timer d p :
  exists new,
    invocations (Tune gen func timer d p).2 = invocations p ++ new /\
    length new = (12 * length (gen tt))%nat /\
    threaded func timer [] (world p) new /\
    Forall (fun i => inv_params i ∈ gen tt) new /\
    world (Tune gen func timer d p).2 = end_world (world p) new.
Proof.
  rewrite Tune_unfold. cbn [snd]. unfold Tune_locals.
  destruct (Tune_loop_threaded func timer (gen tt)
              {| res := None; opt_time := Double.max; opt_params := d;
                 tuning_result := [] |} p)
    as (new & Hi & Hl & Ht & Hp & _ & Hw).
  exists new. by split_and!.
Qed.

(** X6: a tuning session makes exactly 12 kernel calls per candidate, each on
    one of the candidates; the output buffer is one and the same for the
    whole session: it starts empty, and every call, also the first call of
    the next candidate, receives it as the call before left it. [Tune]
    changes neither environment, files nor log. *)
Theorem Tune_shares_buffer gen func timer d p :
  exists new,
    invocations (Tune gen func timer d p).2 = invocations p ++ new /\
    length new = (12 * length (gen tt))%nat /\
    threaded func timer [] (world p) new /\
    Forall (fun i => inv_params i ∈ gen tt) new /\
    world (Tune gen func timer d p).2 = end_world (world p) new /\
    same_surroundings p (Tune gen func timer d p).2.
Proof.
  destruct (Tune_calls gen func timer d p) as (new & Hi & Hl & Ht & Hp & Hw).
  exists new. split_and!; try done.
  rewrite Tune_unfold. cbn [snd]. apply (Tune_locals_probes gen func timer d p).
Qed.

Lemma Tune_res_Some gen func timer d p :
  gen tt <> [] -> is_Some (Tune gen func timer d p).1.1.
Proof.
  intros Hne. rewrite Tune_unfold. cbn [fst].
  destruct (Tune_winner gen func timer d p Hne) as (w & o & [Hlook _] & -> & _).
  pose proof (probes_spec func timer (gen tt) [] p) as Hspec.
  eapply Forall_lookup_1 in Hspec; [|exact Hlook].
  destruct Hspec as (warm & measured & _ & _ & Hm & _ & _ & -> & _).
  destruct (last measured) eqn:El; [by eexists|].
  apply last_None in El. by subst measured.
Qed.

Lemma Tune_res_None_iff gen func timer d p :
  (Tune gen func timer d p).1.1 = None <-> gen tt = [].
Proof.
  split.
  - intros Hnone. destruct (gen tt) as [|c cs] eqn:Eg; [done|].
    destruct (Tune_res_Some gen func timer d p) as [r Hr]; [by rewrite Eg|].
    congruence.
  - intros Hg. rewrite Tune_unfold. unfold Tune_locals. by rewrite Hg.
Qed.

(** X7: [Tune] hands back a result that was never assigned exactly when the
    generator yields no candidate; with at least one candidate the result is
    that of a kernel call. *)
Theorem Tune_result_unassigned_iff gen func timer d p :
  ((Tune gen func timer d p).1.1 = None <-> gen tt = []) /\
  (gen tt <> [] ->
   exists i, i ∈ invocations (Tune gen func timer d p).2 /\
     (Tune gen func timer d p).1.1 = Some (kr_res (inv_result i))).
Proof.
  split; [apply Tune_res_None_iff|]. intros Hne.
  rewrite Tune_unfold. cbn [fst snd].
  destruct (Tune_winner gen func timer d p Hne) as (w & o & [Hlook _] & -> & _).
  destruct (Tune_locals_probes gen func timer d p) as (_ & -> & _).
  pose proof (probes_spec func timer (gen tt) [] p) as Hspec.
  eapply Forall_lookup_1 in Hspec; [|exact Hlook].
  destruct Hspec as (warm & measured & Hc & _ & Hm & _ & _ & -> & _).
  destruct (last measured) as [i|] eqn:El.
  - exists i. split; [|done]. apply elem_of_app. right.
    apply list_elem_of_In, in_concat. exists (o_calls o). split.
    + apply list_elem_of_In, list_elem_of_fmap. exists o. split; [done|].
      by eapply list_elem_of_lookup_2.
    + apply list_elem_of_In. rewrite Hc. apply elem_of_app. right.
      by apply last_Some_elem_of.
  - apply last_None in El. by subst measured.
Qed.

(** X8: [TuneOrRun] returns a result that was never assigned exactly when it
    tunes (flag set, generator given) and the generator yields no candidate;
    in every other case the result is that of a kernel call. *)
Theorem TuneOrRun_result_unassigned_iff k d g func timer t p :
  (TuneOrRun k d g func timer t p).1.1 = None <->
  IsTuning p = true /\ exists gen, g = Some gen /\ gen tt = [].
Proof.
  destruct (IsTuning p) eqn:Et; [destruct g as [gen|]|].
  - rewrite (TuneOrRun_tune k d gen func timer t p Et). cbn [fst].
    rewrite Tune_res_None_iff. split.
    + intros Hg. split; [done|]. by exists gen.
    + by intros (_ & gen' & [= <-] & Hg).
  - destruct (TuneOrRun_replay k d None func timer t p)
      as (i & _ & _ & _ & _ & _ & _ & -> & _); [by right|].
    split; [done|]. by intros (_ & gen & ? & _).
  - destruct (TuneOrRun_replay k d g func timer t p)
      as (i & _ & _ & _ & _ & _ & _ & -> & _); [by left|].
    split; [done|]. by intros (? & _).
Qed.

(** X9: whatever the mode, [TuneOrRun] keeps the persistence path and every
    table entry other than the one under the obfuscated key of the call. *)
Theorem TuneOrRun_keeps_other_keys k d g func timer t p key :
  key <> MACE_OBFUSCATE_SYMBOL k ->
  path_ (TuneOrRun k d g func timer t p).1.2 = path_ t /\
  param_table_ (TuneOrRun k d g func timer t p).1.2 !! key = param_table_ t !! key.
Proof.
  intros Hkey.
  destruct (IsTuning p) eqn:Et; [destruct g as [gen|]|].
  - rewrite (TuneOrRun_tune k d gen func timer t p Et).
    cbn [fst snd with_table path_ param_table_]. by rewrite lookup_insert_ne.
  - destruct (TuneOrRun_replay k d None func timer t p) as (i & -> & _); [by right|done].
  - destruct (TuneOrRun_replay k d g func timer t p) as (i & -> & _); [by left|done].
Qed.

Lemma Tune_shares_buffer_frame gen func timer d p :
  same_surroundings p (Tune gen func timer d p).2.
Proof.
  rewrite Tune_unfold. cbn [snd]. apply (Tune_locals_probes gen func timer d p).
Qed.

Lemma appends_log_refl p : appends_log p p.
Proof. split_and!; try done. exists []. by rewrite app_nil_r. Qed.

Lemma appends_log_trans p1 p2 p3 :
  appends_log p1 p2 -> appends_log p2 p3 -> appends_log p1 p3.
Proof.
  intros (He1 & Hf1 & Hw1 & m1 & Hl1) (He2 & Hf2 & Hw2 & m2 & Hl2).
  split_and!; try congruence. exists (m1 ++ m2). by rewrite Hl2, Hl1, app_assoc.
Qed.

Lemma appends_log_same p q : same_surroundings p q -> appends_log p q.
Proof.
  intros (? & ? & ? & Hl). split_and!; try done. exists []. by rewrite app_nil_r.
Qed.

Lemma appends_log_VLOG level text p : appends_log p (VLOG level text p).
Proof.
  unfold VLOG. destruct (VLOG_IS_ON level); [|apply appends_log_refl].
  split_and!; try done. by eexists.
Qed.

Lemma appends_log_LOG_WARNING text p : appends_log p (LOG_WARNING text p).
Proof. split_and!; try done. by eexists. Qed.

Lemma appends_log_call func params (tm : option Timer) (b : option (list param_type)) p :
  appends_log p (call func params tm b p).2.
Proof. split_and!; try done. exists []. by rewrite app_nil_r. Qed.

Lemma TuneOrRun_appends_log k d g func timer t p :
  appends_log p (TuneOrRun k d g func timer t p).2.
Proof.
  { unfold TuneOrRun.
    assert (appends_log p
      (if bool_decide (is_Some (param_table_ t !! MACE_OBFUSCATE_SYMBOL k))
       then
         let '(p1, table1) :=
           if VLOG_IS_ON 3
           then
             let '(shown, table1) :=
               subscript (param_table_ t) (MACE_OBFUSCATE_SYMBOL k) in
             (VLOG 3 (k ++ ": " ++ MakeString shown) p, table1)
           else (p, param_table_ t) in
         let '(cached, table2) := subscript table1 (MACE_OBFUSCATE_SYMBOL k) in
         let '(r, p2) := call func cached None None p1 in
         (Some (kr_res r), with_table table2 t, p2)
       else
         let p1 :=
           if MACE_DISABLE_NO_TUNING_WARNING then p
           else LOG_WARNING ("Fallback to default parameter: " ++ k) p in
         let '(r, p2) := call func d None None p1 in
         (Some (kr_res r), t, p2)).2) as Hrun.
    { destruct (bool_decide _).
      - destruct (VLOG_IS_ON 3) eqn:Ev.
        + destruct (subscript (param_table_ t) (MACE_OBFUSCATE_SYMBOL k)) as [shown table1].
          destruct (subscript table1 (MACE_OBFUSCATE_SYMBOL k)) as [cached table2].
          eapply appends_log_trans; [apply (appends_log_VLOG 3)|].
          apply (appends_log_call func cached None None).
        + destruct (subscript (param_table_ t) (MACE_OBFUSCATE_SYMBOL k)) as [cached table2].
          apply (appends_log_call func cached None None).
      - destruct MACE_DISABLE_NO_TUNING_WARNING.
        + apply (appends_log_call func d None None).
        + eapply appends_log_trans; [apply appends_log_LOG_WARNING|].
          apply (appends_log_call func d None None). }
    destruct (IsTuning p); [destruct g as [gen|]|]; try exact Hrun.
    pose proof (Tune_shares_buffer_frame gen func timer d p) as Hsame.
    destruct (Tune gen func timer d p) as [[r v] q]. cbn [snd] in *.
    eapply appends_log_trans; [by apply appends_log_same|].
    apply appends_log_VLOG. }
Qed.

(** X10: whatever the mode, [TuneOrRun] leaves the environment and the files
    as they are and only appends to the log; in particular the tuning flag
    reads the same before and after. *)
Theorem TuneOrRun_keeps_files k d g func timer t p :
  appends_log p (TuneOrRun k d g func timer t p).2 /\
  IsTuning (TuneOrRun k d g func timer t p).2 = IsTuning p.
Proof.
  pose proof (TuneOrRun_appends_log k d g func timer t p) as Hgrow.
  split; [done|]. apply IsTuning_environ. by destruct Hgrow.
Qed.

Lemma TuneOrRun_tune_warnings k d gen func timer t p :
  IsTuning p = true ->
  warnings (log (TuneOrRun k d (Some gen) func timer t p).2) = warnings (log p).
Proof.
  intros Ht. rewrite (TuneOrRun_tune k d gen func timer t p Ht). cbn [snd].
  destruct (VLOG_surroundings 3
              ("Tuning " ++ k ++ " retult: " ++ MakeString (Tune gen func timer d p).1.2)
              (Tune gen func timer d p).2) as (_ & _ & _ & _ & _ & ->).
  destruct (Tune_shares_buffer_frame gen func timer d p) as (_ & _ & _ & ->). done.
Qed.

(** X11: after a tuning call for a key, a later call for the same key without
    generator runs the kernel exactly once, untimed and without buffer, on
    the vector that the tuning call stored (the one [Tune] handed back), not
    on its own default, and logs no warning. *)
Theorem tune_then_replay k d gen func timer t p d' func' timer' :
  IsTuning p = true ->
  let out1 := TuneOrRun k d (Some gen) func timer t p in
  let out2 := TuneOrRun k d' None func' timer' out1.1.2 out1.2 in
  exists i,
    invocations out2.2 = invocations out1.2 ++ [i] /\
    inv_params i = (Tune gen func timer d p).1.2 /\
    inv_timer i = None /\ inv_buffer i = None /\
    out2.1.1 = Some (kr_res (inv_result i)) /\
    out2.1.2 = out1.1.2 /\
    warnings (log out2.2) = warnings (log p).
Proof.
  intros Ht out1 out2.
  assert (param_table_ out1.1.2 !! MACE_OBFUSCATE_SYMBOL k
          = Some (Tune gen func timer d p).1.2) as Hk.
  { subst out1. rewrite (TuneOrRun_tune k d gen func timer t p Ht).
    cbn [fst snd with_table param_table_]. apply lookup_insert_eq. }
  destruct (TuneOrRun_replay k d' None func' timer' out1.1.2 out1.2)
    as (i & Ht2 & Hi & Hp & Htm & Hb & _ & Hres & _ & Hl); [by right|].
  rewrite Hk in Hp, Hl. cbn [default] in Hp. rewrite app_nil_r in Hl.
  exists i. subst out2. split_and!; try done.
  rewrite Hl. subst out1. by apply TuneOrRun_tune_warnings.
Qed.

(** X12: when the kernel never writes to the output buffer, a tuning session
    with at least one candidate stores the empty vector, and a later call for
    the key without generator runs the kernel on the empty vector rather than
    on its default. *)
Theorem silent_kernel_caches_empty k d gen func timer t p d' func' timer' :
  IsTuning p = true -> gen tt <> [] -> never_writes func ->
  let out1 := TuneOrRun k d (Some gen) func timer t p in
  let out2 := TuneOrRun k d' None func' timer' out1.1.2 out1.2 in
  param_table_ out1.1.2 !! MACE_OBFUSCATE_SYMBOL k = Some [] /\
  exists i,
    invocations out2.2 = invocations out1.2 ++ [i] /\ inv_params i = [].
Proof.
  intros Ht Hne Hnw out1 out2.
  assert ((Tune gen func timer d p).1.2 = []) as Hv.
  { rewrite Tune_unfold. cbn [fst snd].
    destruct (Tune_winner gen func timer d p Hne) as (w & o & [Hlook _] & _ & _ & ->).
    pose proof (probes_never_writes func timer (gen tt) Hnw [] p) as Hall.
    by eapply Forall_lookup_1 in Hall; [|exact Hlook]. }
  assert (param_table_ out1.1.2 !! MACE_OBFUSCATE_SYMBOL k = Some []) as Hk.
  { subst out1. rewrite (TuneOrRun_tune k d gen func timer t p Ht).
    cbn [fst snd with_table param_table_]. rewrite Hv. apply lookup_insert_eq. }
  split; [done|].
  destruct (TuneOrRun_replay k d' None func' timer' out1.1.2 out1.2)
    as (i & _ & Hi & Hp & _); [by right|].
  rewrite Hk in Hp. by exists i.
Qed.

Lemma serve_frame reqs : forall t p,
  path_ (serve reqs t p).1.2 = path_ t /\ appends_log p (serve reqs t p).2.
Proof.
  induction reqs as [|r rest IH]; intros t p.
  - cbn [serve fst snd]. split; [done | apply appends_log_refl].
  - cbn [serve].
    pose proof (TuneOrRun_appends_log (req_key r) (req_default r) (req_generator r)
                  (req_func r) (req_timer r) t p) as Hgrow.
    assert (path_ (TuneOrRun (req_key r) (req_default r) (req_generator r)
                     (req_func r) (req_timer r) t p).1.2 = path_ t) as Hpath.
    { destruct (IsTuning p) eqn:Et; [destruct (req_generator r) as [gen|]|].
      - by rewrite (TuneOrRun_tune _ _ gen _ _ t p Et).
      - by destruct (TuneOrRun_replay (req_key r) (req_default r) None (req_func r)
                       (req_timer r) t p) as (i & -> & _); [right|].
      - by destruct (TuneOrRun_replay (req_key r) (req_default r) (req_generator r)
                       (req_func r) (req_timer r) t p) as (i & -> & _); [left|]. }
    destruct (TuneOrRun (req_key r) (req_default r) (req_generator r)
                (req_func r) (req_timer r) t p) as [[x t1] p1].
    cbn [fst snd] in *. destruct (IH t1 p1) as [Hp2 Hg2].
    destruct (serve rest t1 p1) as [[xs t2] p2]. cbn [fst snd] in *.
    split; [congruence | by eapply appends_log_trans].
Qed.
End MoreTunerFacts.

Section MoreWriterFacts.
Context {param_type RetType World Timer : Type}.
Context `{!ParamType param_type, !Collaborators param_type World Timer}.
Implicit Types (p : process param_type RetType World Timer).
Implicit Types (t : Tuner param_type).
Implicit Types (reqs : list (request param_type RetType World Timer)).

(** X13: without a configured persistence path the whole life of the tuner
    (construction, any calls of [TuneOrRun] in any mode, destruction) leaves
    every file as it is, and the write at exit is skipped. *)
Theorem lifetime_without_path reqs p :
  environ p "MACE_RUN_PARAMETER_PATH" = None ->
  exists p', lifetime reqs p = Some p' /\ files p' = files p.
Proof.
  intros Henv. unfold lifetime, Tuner_new, ReadRunParamters.
  cbn [path_ param_table_]. rewrite Henv.
  destruct (GetTuningParams None (files p) ∅) as [success table].
  set (t0 := with_table table {| path_ := None; param_table_ := ∅ |}).
  set (p1 := if success then p else LOG_WARNING "Get run parameter failed." p).
  assert (files p1 = files p) as Hf1 by (unfold p1; by destruct success).
  destruct (serve_frame reqs t0 p1) as [Hpath (_ & Hf2 & _)].
  destruct (serve reqs t0 p1) as [[xs t'] p2]. cbn [fst snd] in *.
  exists p2. unfold Tuner_delete, WriteRunParameters. rewrite Hpath.
  split; [done | congruence].
Qed.



Lemma log_entries_frame (kps : list (string * list param_type)) : forall p,
  appends_log p (log_entries kps p) /\
  world (log_entries kps p) = world p /\
  invocations (log_entries kps p) = invocations p /\
  warnings (log (log_entries kps p)) = warnings (log p).
Proof.
  induction kps as [|kp kps IH]; intros p.
  - cbn [log_entries]. split_and!; try done. apply appends_log_refl.
  - cbn [log_entries].
    set (q := VLOG 3 ("Write tuning param: " ++ kp.1 ++ ": " ++ MakeString kp.2) p).
    destruct (IH q) as (Hg & Hw & Hi & Hl).
    destruct (VLOG_surroundings 3
                ("Write tuning param: " ++ kp.1 ++ ": " ++ MakeString kp.2) p)
      as (_ & _ & _ & Hw' & Hi' & Hl').
    fold q in Hw', Hi', Hl'. split_and!; try congruence.
    eapply appends_log_trans; [apply (appends_log_VLOG 3)|exact Hg].
Qed.

(** X16: a save that completes changes nothing but the file at the configured
    path and the log: the world, the call history, the environment and every
    other file stay as they are; it logs a warning only when the file could
    not be opened, and then no file changes at all. *)
Theorem WriteRunParameters_frame t p p' :
  WriteRunParameters t p = Some p' ->
  world p' = world p /\ invocations p' = invocations p /\
  environ p' = environ p /\
  (forall f, path_ t <> Some f -> files p' !! f = files p !! f) /\
  (exists more, log p' = log p ++ more) /\
  (warnings (log p') = warnings (log p) \/
   files p' = files p /\
   warnings (log p') = warnings (log p) ++ ["Write run parameter file failed."]).
Proof.
  unfold WriteRunParameters. destruct (path_ t) as [path|] eqn:Hpath.
  - destruct (VLOG_surroundings 3 ("Write tuning result to " ++ path) p)
      as (He & Hf & Hwr & Hw & Hi & Hl).
    pose proof (appends_log_VLOG 3 ("Write tuning result to " ++ path) p)
      as (_ & _ & _ & m1 & Hm1).
    set (p1 := VLOG 3 ("Write tuning result to " ++ path) p) in *.
    destruct (writable p1 path).
    + destruct (write_table (param_table_ t)) as [bytes|]; [|done].
      intros [= <-].
      destruct (log_entries_frame (iteration_order (param_table_ t)) p1)
        as ((He2 & Hf2 & _ & m2 & Hm2) & Hw2 & Hi2 & Hl2).
      cbn [with_file world invocations environ files log].
      split_and!;
        [ congruence | congruence | congruence
        | intros f Hne; rewrite lookup_insert_ne by congruence; congruence
        | exists (m1 ++ m2); by rewrite Hm2, Hm1, app_assoc
        | left; congruence ].
    + intros [= <-]. unfold LOG_WARNING, with_log.
      cbn [world invocations environ files log].
      split_and!;
        [ congruence | congruence | congruence
        | intros f _; congruence
        | eexists (m1 ++ [_]); by rewrite Hm1, app_assoc
        | right; split; [congruence|]; by rewrite warnings_app, Hl ].
  - intros [= <-].
    split_and!; [done | done | done | done | exists []; by rewrite app_nil_r | by left].
Qed.
End MoreWriterFacts.

Section CallCounts.
Context {param_type RetType World Timer : Type}.
Context `{!ParamType param_type, !Collaborators param_type World Timer}.
Implicit Types (func : kernel param_type RetType World Timer).
Implicit Types (p : process param_type RetType World Timer).
Implicit Types (timer : Timer) (t : Tuner param_type).
Implicit Types (g : option (generator param_type)).
Implicit Types (k : string) (d : list param_type).

(** X17: a call of [TuneOrRun] costs 12 kernel calls per candidate when it
    tunes (tuning flag set and generator given) and exactly one kernel call
    otherwise. *)
Theorem TuneOrRun_call_count k d g func timer t p :
  length (invocations (TuneOrRun k d g func timer t p).2) =
  (length (invocations p) +
   match IsTuning p, g with
   | true, Some gen => 12 * length (gen tt)
   | _, _ => 1
   end)%nat.
Proof.
  assert (IsTuning p = false \/ g = None ->
          length (invocations (TuneOrRun k d g func timer t p).2)
          = (length (invocations p) + 1)%nat) as Hreplay.
  { intros Hmode.
    destruct (TuneOrRun_replay k d g func timer t p Hmode) as (i & _ & -> & _).
    by rewrite length_app. }
  destruct (IsTuning p) eqn:Et; [destruct g as [gen|]|];
    [|apply Hreplay; by right|apply Hreplay; by left].
  rewrite (TuneOrRun_tune k d gen func timer t p Et). cbn [snd].
  destruct (VLOG_surroundings 3
              ("Tuning " ++ k ++ " retult: " ++ MakeString (Tune gen func timer d p).1.2)
              (Tune gen func timer d p).2) as (_ & _ & _ & _ & -> & _).
  destruct (Tune_calls gen func timer d p) as (new & -> & Hl & _).
  by rewrite length_app, Hl.
Qed.

(** X18: saving an empty table, whatever the parameter type, writes a file
    that holds the [int64_t] entry count 0 and nothing else, in place of
    whatever the file held before. *)
Theorem WriteRunParameters_empty_table t p path :
  path_ t = Some path -> writable p path = true -> param_table_ t = ∅ ->
  exists p',
    WriteRunParameters t p = Some p' /\
    files p' !! path = Some (Raw.encode byte_order 8 0).
Proof.
  intros Hpath Hw Hempty. unfold WriteRunParameters. rewrite Hpath.
  destruct (VLOG_surroundings 3 ("Write tuning result to " ++ path) p)
    as (_ & _ & Hwr & _).
  rewrite Hwr, Hw. unfold write_table. rewrite Hempty.
  pose proof (iteration_order_entries (∅ : gmap string (list param_type))) as Hnone.
  rewrite map_to_list_empty in Hnone. apply Permutation_nil_r in Hnone.
  rewrite Hnone. cbn [write_entries log_entries]. rewrite map_size_empty.
  eexists. split; [reflexivity|].
  cbn [with_file files]. rewrite lookup_insert_eq, app_nil_r. reflexivity.
Qed.
End CallCounts.

(** ** Concrete runs of the further properties *)


(** X5 on ten runs of a kernel with huge timer readings. *)
Lemma Run_time_below_max_witness :
  let func := Sample.reporting (fun _ => 2 ^ 62) in
  let p := Sample.boot None None in
  (10 = 2 \/ 10 = 10) /\
  Double.is_nan
    (Run (Collaborators0 := host LittleEndian false) func [3] tt 10 [] p).1.1.2
  = false /\
  Double.ltb
    (Run (Collaborators0 := host LittleEndian false) func [3] tt 10 [] p).1.1.2
    Double.max = true.
Proof.
  intros func p. split; [by right|].
  apply (Run_time_below_max (Collaborators0 := host LittleEndian false)
           func [3] tt 10 [] p). by right.
Defined.

(** X9 on a tuning call for one key of the sample table. *)
Lemma TuneOrRun_keeps_other_keys_witness :
  let t := Sample.tuner (Some "mace_run.config"%string) Sample.table in
  let p := Sample.boot (Some "1"%string) None in
  let out :=
    TuneOrRun (Collaborators0 := host LittleEndian false) "convK3" [1; 1; 1]
      (Some (fun _ => [[2; 2; 2]])) (Sample.reporting (fun _ => 10)) tt t p in
  "gemmTile"%string <> "convK3"%string /\
  path_ out.1.2 = path_ t /\
  param_table_ out.1.2 !! "gemmTile"%string = param_table_ t !! "gemmTile"%string.
Proof.
  intros t p out. split; [done|].
  apply (TuneOrRun_keeps_other_keys (Collaborators0 := host LittleEndian false)
           "convK3"%string [1; 1; 1] (Some (fun _ => [[2; 2; 2]]))
           (Sample.reporting (fun _ => 10)) tt t p "gemmTile"%string). done.
Defined.

(** X11 on the candidates [[1]; [5]], the second one faster. *)
Lemma tune_then_replay_witness :
  let t := Sample.tuner None ∅ in
  let p := Sample.boot (Some "1"%string) None in
  let gen : generator Z := fun _ => [[1]; [5]] in
  let func := Sample.reporting (fun v => match v with [5] => 1 | _ => 5 end) in
  let out1 :=
    TuneOrRun (Collaborators0 := host LittleEndian false) "k" [7] (Some gen) func tt t p in
  let out2 :=
    TuneOrRun (Collaborators0 := host LittleEndian false) "k" [8] None func tt
      out1.1.2 out1.2 in
  IsTuning p = true /\
  exists i,
    invocations out2.2 = invocations out1.2 ++ [i] /\
    inv_params i
      = (Tune (Collaborators0 := host LittleEndian false) gen func tt [7] p).1.2 /\
    inv_timer i = None /\ inv_buffer i = None /\
    out2.1.1 = Some (kr_res (inv_result i)) /\
    out2.1.2 = out1.1.2 /\
    warnings (log out2.2) = warnings (log p).
Proof.
  intros t p gen func out1 out2. split; [done|].
  apply (tune_then_replay (Collaborators0 := host LittleEndian false)
           "k"%string [7] gen func tt t p [8] func tt). done.
Defined.

(** X12 on a kernel that leaves the buffer alone. *)
Lemma silent_kernel_caches_empty_witness :
  let t := Sample.tuner None ∅ in
  let p := Sample.boot (Some "1"%string) None in
  let gen : generator Z := fun _ => [[1]; [5]] in
  let func := Sample.silent (fun _ => 5) in
  let out1 :=
    TuneOrRun (Collaborators0 := host LittleEndian false) "k" [7] (Some gen) func tt t p in
  let out2 :=
    TuneOrRun (Collaborators0 := host LittleEndian false) "k" [8] None func tt
      out1.1.2 out1.2 in
  IsTuning p = true /\ gen tt <> [] /\ never_writes func /\
  param_table_ out1.1.2 !! "k"%string = Some [] /\
  exists i,
    invocations out2.2 = invocations out1.2 ++ [i] /\ inv_params i = [].
Proof.
  intros t p gen func out1 out2.
  assert (never_writes func) as Hnw by (by intros params timer buffer w).
  split; [done|]. split; [done|]. split; [exact Hnw|].
  apply (silent_kernel_caches_empty (Collaborators0 := host LittleEndian false)
           "k"%string [7] gen func tt t p [8] func tt); done.
Defined.

(** X13 on a process without [MACE_RUN_PARAMETER_PATH] that tunes once. *)
Lemma lifetime_without_path_witness :
  let p : process Z Z Z unit := Sample.boot (Some "1"%string) None in
  let r : request Z Z Z unit :=
    {| req_key := "k"; req_default := [7];
       req_generator := Some (fun _ => [[1]; [5]]);
       req_func := Sample.reporting (fun _ => 10); req_timer := tt |} in
  environ p "MACE_RUN_PARAMETER_PATH" = None /\
  exists p',
    lifetime (ParamType0 := unsigned_int LittleEndian)
      (Collaborators0 := host LittleEndian false) [r] p = Some p' /\
    files p' = files p.
Proof.
  intros p r. split; [done|].
  apply (lifetime_without_path (ParamType0 := unsigned_int LittleEndian)
           (Collaborators0 := host LittleEndian false) [r] p). done.
Defined.


(** X16 on a save of the sample table. *)
Lemma WriteRunParameters_frame_witness :
  let t := Sample.tuner (Some "mace_run.config"%string) Sample.table in
  let p : process Z Z Z unit := Sample.boot None (Some "mace_run.config"%string) in
  exists p',
    WriteRunParameters (ParamType0 := unsigned_int LittleEndian)
      (Collaborators0 := host LittleEndian false) t p = Some p' /\
    world p' = world p /\ invocations p' = invocations p /\
    environ p' = environ p /\
    (forall f, path_ t <> Some f -> files p' !! f = files p !! f) /\
    (exists more, log p' = log p ++ more) /\
    (warnings (log p') = warnings (log p) \/
     files p' = files p /\
     warnings (log p') = warnings (log p) ++ ["Write run parameter file failed."]).
Proof.
  intros t p. eexists. split; [by vm_compute|].
  apply (WriteRunParameters_frame (ParamType0 := unsigned_int LittleEndian)
           (Collaborators0 := host LittleEndian false) t p).
  by vm_compute.
Defined.

(** X18 on an empty table and a file that held something else. *)
Lemma WriteRunParameters_empty_table_witness :
  let t : Tuner Z := Sample.tuner (Some "mace_run.config"%string) ∅ in
  let p : process Z Z Z unit :=
    {| environ := Sample.getenv None (Some "mace_run.config"%string);
       files := <["mace_run.config"%string := [x2a; x2a]]> ∅;
       writable := fun _ => true; world := 0; invocations := []; log := [] |} in
  path_ t = Some "mace_run.config"%string /\
  writable p "mace_run.config" = true /\ param_table_ t = ∅ /\
  exists p',
    WriteRunParameters (ParamType0 := uint16_t LittleEndian)
      (Collaborators0 := host LittleEndian false) t p = Some p' /\
    files p' !! "mace_run.config"%string = Some (Raw.encode LittleEndian 8 0).
Proof.
  intros t p. split; [done|]. split; [done|]. split; [done|].
  apply (WriteRunParameters_empty_table (ParamType0 := uint16_t LittleEndian)
           (Collaborators0 := host LittleEndian false) t p "mace_run.config"%string);
    done.
Defined.
